(** * dawichi/blog: the content schema, the index page and the page scripts

    A shallow embedding of the logic-bearing parts of the blog:

    - [src/content/config.ts]: the zod schema of the [blog] collection;
    - the index page: the visibility filter, the tag controls computed by
      [reduce], and the inline script that filters posts by tag;
    - [src/pages/[...slug].astro]: the inline script that builds the table
      of contents and the scroll listener of the reading-progress bar.

    JavaScript strings are [string]s, arrays are [list]s, objects used as
    records of named properties are [gmap string _], and DOM look-ups that
    may return [null] are [option]s.  An uncaught [TypeError] is an explicit
    outcome of the scripts. *)

From Stdlib Require Import ZArith String Lia.
From stdpp Require Import base option list sorting strings gmap.

#[local] Set Warnings "-register-all".

(** ** JavaScript values and library functions *)

Module Js.

(** A [Date] object: its time value in milliseconds, or [NaN]. *)
Inductive Date :=
  | ValidDate (ms : Z)
  | InvalidDate.

(** The values a frontmatter block can hold once the YAML parser has read
    it.  A number keeps its source text, as no schema below looks inside
    one; a YAML timestamp is always a [Date] with a proper time value. *)
Inductive Value :=
  | VUndefined
  | VNull
  | VBool (b : bool)
  | VNumber (lit : string)
  | VString (s : string)
  | VDate (ms : Z)
  | VArray (items : list Value)
  | VObject (fields : gmap string Value).

(** [o[k]]: reading a property that is not there gives [undefined]. *)
Definition prop (o : gmap string Value) (k : string) : Value :=
  default VUndefined (o !! k).

(** [xs.includes(x)] on an array of strings. *)
Definition includes (xs : list string) (x : string) : bool :=
  bool_decide (x ∈ xs).

(** [Array.prototype.sort]: a stable sort, here by insertion from the
    right; [le a b] says that the comparator does not put [b] before [a]. *)
Fixpoint insert_sorted {A} (le : A → A → bool) (x : A) (l : list A) : list A :=
  match l with
  | [] => [x]
  | y :: l' => if le x y then x :: y :: l' else y :: insert_sorted le x l'
  end.

Definition sort_by {A} (le : A → A → bool) (l : list A) : list A :=
  foldr (insert_sorted le) [] l.

(** [xs.sort()] without a comparator, on strings.  The strings here are
    compared byte by byte, which is the order of [sort()] on ASCII
    labels; beyond ASCII the engine orders UTF-16 code units and the two
    orders can differ.  Nothing below depends on the order of the
    result, only on what it holds. *)
Definition sort (xs : list string) : list string := sort_by String.leb xs.

(** How a script ends: normally, or with an uncaught exception. *)
Inductive Error := TypeError.

Inductive Completion (A : Type) :=
  | Normal (a : A)
  | Throw (e : Error).
Arguments Normal {A} a.
Arguments Throw {A} e.

End Js.

(** ** The part of zod that [config.ts] uses *)

Module Zod.
Import Js.

Inductive PathSeg :=
  | Key (k : string)
  | Index (i : nat).

Inductive IssueCode := invalid_type | invalid_union.

Record ZodIssue := { code : IssueCode; path : list PathSeg }.

(** The result of [safeParse]. *)
Inductive SafeParse (A : Type) :=
  | Success (data : A)
  | Failure (issues : list ZodIssue).
Arguments Success {A} data.
Arguments Failure {A} issues.

Definition ZodType (A : Type) : Type := Value → SafeParse A.

Definition sp_map {A B} (f : A → B) (r : SafeParse A) : SafeParse B :=
  match r with
  | Success a => Success (f a)
  | Failure i => Failure i
  end.

(** Two results are merged as zod merges the fields of an object: the
    issues of both sides are kept. *)
Definition sp_ap {A B} (rf : SafeParse (A → B)) (ra : SafeParse A) : SafeParse B :=
  match rf, ra with
  | Success f, Success a => Success (f a)
  | Success _, Failure j => Failure j
  | Failure i, Success _ => Failure i
  | Failure i, Failure j => Failure (i ++ j)
  end.

Definition under (seg : PathSeg) {A} (r : SafeParse A) : SafeParse A :=
  match r with
  | Success a => Success a
  | Failure i => Failure (map (λ issue, {| code := code issue; path := seg :: path issue |}) i)
  end.

Definition type_issue : list ZodIssue := [{| code := invalid_type; path := [] |}].

Definition z_string : ZodType string := λ v,
  match v with
  | VString s => Success s
  | _ => Failure type_issue
  end.

Definition z_boolean : ZodType bool := λ v,
  match v with
  | VBool b => Success b
  | _ => Failure type_issue
  end.

(** [z.date()] takes a [Date] whose time value is not [NaN]. *)
Definition z_date : ZodType Date := λ v,
  match v with
  | VDate ms => Success (ValidDate ms)
  | _ => Failure type_issue
  end.

Fixpoint parse_items {A} (T : ZodType A) (i : nat) (items : list Value) : SafeParse (list A) :=
  match items with
  | [] => Success []
  | v :: rest => sp_ap (sp_map cons (under (Index i) (T v))) (parse_items T (S i) rest)
  end.

Definition z_array {A} (T : ZodType A) : ZodType (list A) := λ v,
  match v with
  | VArray items => parse_items T 0 items
  | _ => Failure type_issue
  end.

(** [S.or(T)]: the first schema that accepts the value wins. *)
Definition z_or {A B} (S : ZodType A) (T : ZodType B) : ZodType (A + B) := λ v,
  match S v with
  | Success a => Success (inl a)
  | Failure _ =>
      match T v with
      | Success b => Success (inr b)
      | Failure _ => Failure [{| code := invalid_union; path := [] |}]
      end
  end.

Definition z_transform {A B} (S : ZodType A) (f : A → B) : ZodType B := λ v,
  sp_map f (S v).

(** One key of the shape of a [z.object]: the schema is run on [o[k]]. *)
Definition field {A} (o : gmap string Value) (k : string) (T : ZodType A) : SafeParse A :=
  under (Key k) (T (prop o k)).

(** [z.object(shape)]: the value must be an object; keys outside the
    shape are dropped. *)
Definition z_object {A} (shape : gmap string Value → SafeParse A) : ZodType A := λ v,
  match v with
  | VObject o => shape o
  | _ => Failure type_issue
  end.

End Zod.

(** ** [src/content/config.ts] *)

Module Config.
Import Js Zod.

Record Article := mkArticle {
  title : string;
  description : string;
  pubDate : Date;
  heroImage : string;
  tags : list string;
  visible : bool;
}.

(** A content file of the collection and the entry made of it. *)
Record ContentFile := { file_slug : string; frontmatter : Value }.

Record Entry := { slug : string; data : Article }.

(** The outcome of a build: the entries, or the file that stopped it. *)
Inductive Build (A : Type) :=
  | Built (a : A)
  | BuildError (file : string) (issues : list ZodIssue).
Arguments Built {A} a.
Arguments BuildError {A} file issues.

Section Schema.
(** [new Date(s)] on a string is [Date.parse], whose result outside the
    ISO format is left to the engine. *)
Variable Date_parse : string → Date.

(** [val => new Date(val)] *)
Definition new_Date (val : string + Date) : Date :=
  match val with
  | inl s => Date_parse s
  | inr d => d
  end.

Definition blog : ZodType Article :=
  z_object (λ o,
    sp_ap (sp_ap (sp_ap (sp_ap (sp_ap (sp_map mkArticle
      (field o "title" z_string))
      (field o "description" z_string))
      (field o "pubDate" (z_transform (z_or z_string z_date) new_Date)))
      (field o "heroImage" z_string))
      (field o "tags" (z_array z_string)))
      (field o "visible" z_boolean)).

(** Modelled from the spec: the loading of the collection, which Astro
    does and the repository does not hold.  At build time every
    frontmatter goes through the schema, and the first one that fails
    stops the build with the issues found in that file. *)
Fixpoint getCollection (files : list ContentFile) : Build (list Entry) :=
  match files with
  | [] => Built []
  | f :: rest =>
      match blog (frontmatter f) with
      | Failure issues => BuildError (file_slug f) issues
      | Success a =>
          match getCollection rest with
          | Built entries => Built ({| slug := file_slug f; data := a |} :: entries)
          | BuildError file issues => BuildError file issues
          end
      end
  end.
End Schema.

End Config.

(** ** The index page, server side: which posts and which tags it shows *)

Module Index.
Import Js Config.

(** [(a, b) => a.data.pubDate.valueOf() - b.data.pubDate.valueOf()];
    the difference is [NaN] ([None]) when a date is invalid. *)
Definition by_pubDate (a b : Entry) : option Z :=
  match pubDate (data a), pubDate (data b) with
  | ValidDate x, ValidDate y => Some (x - y)%Z
  | _, _ => None
  end.

(** [sort] leaves [a] before [b] unless the comparator is positive, and
    reads [NaN] as [+0]. *)
Definition keeps_order (c : option Z) : bool :=
  match c with
  | Some v => (v <=? 0)%Z
  | None => true
  end.

(** [import.meta.env.NODE_ENV === 'development'] *)
Definition is_development (NODE_ENV : option string) : bool :=
  bool_decide (NODE_ENV = Some "development").

(** The variable [posts] once the frontmatter of the page has run. *)
Definition posts (NODE_ENV : option string) (collection : list Entry) : list Entry :=
  let posts := sort_by (λ a b, keeps_order (by_pubDate a b)) collection in
  if negb (is_development NODE_ENV)
  then filter (λ post, visible (data post) = true) posts
  else posts.

(** The labels of the buttons of [#tags-list]. *)
Definition tags_list (posts : list Entry) : list string :=
  sort (fold_left (λ acc post,
          fold_left (λ acc tag,
            if negb (includes acc tag) then acc ++ [tag] else acc)
            (tags (data post)) acc)
          posts []).

(** One [<li>] of [#posts-list]. *)
Record PostItem := {
  item_href : string;
  item_spans : list string;
  item_title : string;
  item_description : string;
  item_date : Date;
}.

Definition post_item (post : Entry) : PostItem :=
  {| item_href := "/" +:+ slug post +:+ "/";
     item_spans := sort (tags (data post));
     item_title := title (data post);
     item_description := description (data post);
     item_date := pubDate (data post) |}.

Definition posts_list (posts : list Entry) : list PostItem :=
  map post_item (reverse posts).

Record Page := { tag_buttons : list string; post_items : list PostItem }.

Definition index_page (NODE_ENV : option string) (collection : list Entry) : Page :=
  let posts := posts NODE_ENV collection in
  {| tag_buttons := tags_list posts; post_items := posts_list posts |}.

End Index.

(** ** The index page, client side: the tag filter *)

Module TagFilter.
Import Js.

(** [classList.add] and [classList.remove] on the tokens of an element. *)
Definition classList_add (token : string) (cl : list string) : list string :=
  if bool_decide (token ∈ cl) then cl else cl ++ [token].

Definition classList_remove (token : string) (cl : list string) : list string :=
  filter (λ c, c ≠ token) cl.

(** A [<li>] of [#posts-list]: the text of each [<span>] inside it, in
    document order, and its class tokens. *)
Record Li := { spans : list string; li_classList : list string }.

(** A [<button>] of [#tags-list]. *)
Record Button := { innerHTML : string; innerText : string; classList : list string }.

(** The two node lists the script keeps and its variable. *)
Record State := {
  posts : list Li;
  tags : list Button;
  last_tag_clicked : option string;
}.

Definition updatePosts (tag_clicked : string) (s : State) : State :=
  {| posts :=
       map (λ post,
         let tags := spans post in
         if includes tags tag_clicked || bool_decide (tag_clicked = "all")
         then {| spans := spans post; li_classList := classList_remove "opacity-20" (li_classList post) |}
         else {| spans := spans post; li_classList := classList_add "opacity-20" (li_classList post) |})
         (posts s);
     tags := tags s;
     last_tag_clicked := last_tag_clicked s |}.

Definition updateTags (tag_clicked : string) (s : State) : State :=
  {| posts := posts s;
     tags :=
       map (λ tag,
         if bool_decide (innerHTML tag = tag_clicked) || bool_decide (tag_clicked = "all")
         then {| innerHTML := innerHTML tag; innerText := innerText tag;
                 classList := classList_remove "opacity-20" (classList tag) |}
         else {| innerHTML := innerHTML tag; innerText := innerText tag;
                 classList := classList_add "opacity-20" (classList tag) |})
         (tags s);
     last_tag_clicked := last_tag_clicked s |}.

Definition set_last_tag_clicked (v : option string) (s : State) : State :=
  {| posts := posts s; tags := tags s; last_tag_clicked := v |}.

(** The listener of one button.  The text and the markup of the button
    are the same before and after the updates, which touch classes only. *)
Definition on_click (tag : Button) (s : State) : State :=
  if bool_decide (Some (innerHTML tag) = last_tag_clicked s) then
    let s := updatePosts "all" s in
    let s := updateTags "all" s in
    set_last_tag_clicked None s
  else
    let s := updatePosts (innerText tag) s in
    let s := updateTags (innerText tag) s in
    set_last_tag_clicked (Some (innerHTML tag)) s.

(** A click on the [i]-th button; there is no listener elsewhere. *)
Definition click (i : nat) (s : State) : State :=
  match tags s !! i with
  | Some tag => on_click tag s
  | None => s
  end.

Definition clicks (buttons : list nat) (s : State) : State :=
  fold_left (λ s i, click i s) buttons s.

(** The script as it starts on a freshly loaded page. *)
Definition load (posts : list Li) (tags : list Button) : State :=
  {| posts := posts; tags := tags; last_tag_clicked := None |}.

End TagFilter.

(** ** The article page: table of contents and reading progress *)

Module Toc.
Import Js.

(** A value of a style property: not set, a literal, or the text that
    [(num / den) * 100 + '%'] gives in floating point, kept as the two
    operands. *)
Inductive CssValue :=
  | css_unset
  | css (text : string)
  | css_percent (num den : Z).

Inductive Element := mkElement {
  nodeName : string;
  id : string;
  className : string;
  href : string;
  innerText : string;
  marginLeft : CssValue;
  paddingBottom : CssValue;
  width : CssValue;
  children : list Element;
}.

(** What the script reads of the page. *)
Record Document := {
  dw_blog_article : list Element;
  table_of_contents : option Element;
  post_progress_bar : option Element;
  body_scrollHeight : Z;
}.

Record Window := { scrollY : Z; innerHeight : Z }.

(** [document.createElement]; [nodeName] is the tag name in upper case. *)
Definition createElement (nodeName : string) : Element :=
  {| nodeName := nodeName; id := ""; className := ""; href := ""; innerText := "";
     marginLeft := css_unset; paddingBottom := css_unset; width := css_unset;
     children := [] |}.

(** [parent.appendChild(child)].  The [innerText] field is the text an
    element had when it was read or set; the text the browser derives
    for [parent] from its new child is not computed, and nothing below
    reads the text of an element that was appended to. *)
Definition appendChild (parent child : Element) : Element :=
  {| nodeName := nodeName parent; id := id parent; className := className parent;
     href := href parent; innerText := innerText parent;
     marginLeft := marginLeft parent; paddingBottom := paddingBottom parent;
     width := width parent;
     children := children parent ++ [child] |}.

(** The elements below [e], in document order. *)
Fixpoint descendants (e : Element) : list Element :=
  (fix below (l : list Element) : list Element :=
     match l with
     | [] => []
     | c :: l' => c :: descendants c ++ below l'
     end) (children e).

(** [e.querySelectorAll('h2, h3')] *)
Definition is_subheading (e : Element) : bool :=
  bool_decide (nodeName e = "H2") || bool_decide (nodeName e = "H3").

Definition querySelectorAll_h2_h3 (e : Element) : list Element :=
  List.filter is_subheading (descendants e).

(** [margins[k.nodeName]]; a name outside the table gives [undefined],
    which leaves the property as it was. *)
Definition margins (nodeName : string) : CssValue :=
  if bool_decide (nodeName = "H2") then css "0rem"
  else if bool_decide (nodeName = "H3") then css "1rem"
  else css_unset.

(** The body of the [forEach]: the [<li>] built for heading [k]. *)
Definition toc_item (k : Element) : Element :=
  let li := createElement "LI" in
  let a := createElement "A" in
  let a :=
    {| nodeName := nodeName a; id := id a;
       className := "hover:underline p-2";
       href := "#" +:+ id k;
       innerText := innerText k;
       marginLeft := margins (nodeName k);
       paddingBottom := paddingBottom a; width := width a;
       children := children a |} in
  let li :=
    {| nodeName := nodeName li; id := id li; className := className li;
       href := href li; innerText := innerText li;
       marginLeft := marginLeft li;
       paddingBottom := css "0.5rem"; width := width li;
       children := children li |} in
  appendChild li a.

Definition set_table_of_contents (toc : Element) (d : Document) : Document :=
  {| dw_blog_article := dw_blog_article d;
     table_of_contents := Some toc;
     post_progress_bar := post_progress_bar d;
     body_scrollHeight := body_scrollHeight d |}.

Definition generateTableOfContents (d : Document) : Completion Document :=
  match dw_blog_article d with
  | [] => Normal d
  | article :: _ =>
      match table_of_contents d with
      | None => Throw TypeError
      | Some toc =>
          if negb (length (children toc) =? 0) then Normal d
          else
            Normal (set_table_of_contents
                      (fold_left (λ toc k, appendChild toc (toc_item k))
                         (querySelectorAll_h2_h3 article) toc) d)
      end
  end.

(** Whether the browser takes [(num / den) * 100 + '%'] as a width: the
    quotient has to be a number, finite and not negative.  An assignment
    of [NaN%], [Infinity%] or a negative percentage is dropped and leaves
    the width as it was. *)
Definition valid_percent (num den : Z) : bool :=
  negb (den =? 0)%Z && (0 <=? num * den)%Z.

(** The [scroll] listener. *)
Definition on_scroll (w : Window) (d : Document) : Completion Document :=
  match post_progress_bar d with
  | None => Throw TypeError
  | Some bar =>
      let num := scrollY w in
      let den := (body_scrollHeight d - innerHeight w)%Z in
      Normal
        {| dw_blog_article := dw_blog_article d;
           table_of_contents := table_of_contents d;
           post_progress_bar :=
             Some {| nodeName := nodeName bar; id := id bar; className := className bar;
                     href := href bar; innerText := innerText bar;
                     marginLeft := marginLeft bar; paddingBottom := paddingBottom bar;
                     width := if valid_percent num den then css_percent num den
                              else width bar;
                     children := children bar |};
           body_scrollHeight := body_scrollHeight d |}
  end.

End Toc.

(** * The specification, in definitions *)

(** ** The schema: what the specification asks of a frontmatter *)

Module SchemaSpec.
Import Js Zod Config.

Definition is_string (v : Value) : Prop := ∃ s, v = VString s.
Definition is_date (v : Value) : Prop := ∃ ms, v = VDate ms.
Definition is_boolean (v : Value) : Prop := ∃ b, v = VBool b.
Definition is_string_sequence (v : Value) : Prop :=
  ∃ items, v = VArray items ∧ Forall is_string items.

(** Section 4.1: [title] and [description] are text, [pubDate] is a date
    or a text, [heroImage] is text, [tags] is a sequence of text and
    [visible] is a boolean. *)
Definition well_typed (raw : Value) : Prop :=
  ∃ o, raw = VObject o
    ∧ is_string (prop o "title")
    ∧ is_string (prop o "description")
    ∧ (is_date (prop o "pubDate") ∨ is_string (prop o "pubDate"))
    ∧ is_string (prop o "heroImage")
    ∧ is_string_sequence (prop o "tags")
    ∧ is_boolean (prop o "visible").

(** The article that a well-typed frontmatter stands for, the date being
    converted. *)
Definition typed_as (Date_parse : string → Date) (o : gmap string Value) (a : Article) : Prop :=
  prop o "title" = VString (title a)
  ∧ prop o "description" = VString (description a)
  ∧ ((∃ ms, prop o "pubDate" = VDate ms ∧ pubDate a = ValidDate ms)
     ∨ (∃ s, prop o "pubDate" = VString s ∧ pubDate a = Date_parse s))
  ∧ prop o "heroImage" = VString (heroImage a)
  ∧ prop o "tags" = VArray (map VString (tags a))
  ∧ prop o "visible" = VBool (visible a).

(** The fields the shape of the schema names. *)
Definition required : list string :=
  ["title"; "description"; "pubDate"; "heroImage"; "tags"; "visible"].

Definition accepts {A} (T : ZodType A) (v : Value) : Prop := ∃ a, T v = Success a.
Definition rejects {A} (T : ZodType A) (v : Value) : Prop := ∃ issues, T v = Failure issues.

Definition build_fails (Date_parse : string → Date) (files : list ContentFile) : Prop :=
  ∃ file issues, getCollection Date_parse files = BuildError file issues.

End SchemaSpec.

(** ** The index page: visibility and tag controls *)

Module IndexSpec.
Import Js Config Index.

(** The inner [forEach]: the tags of one post pushed onto [acc]. *)
Definition push_new (acc : list string) (ts : list string) : list string :=
  fold_left (λ acc tag, if negb (includes acc tag) then acc ++ [tag] else acc) ts acc.

End IndexSpec.

(** ** The tag filter: what the specification says of the display *)

Module TagFilterSpec.
Import Js TagFilter.

(** An element is dimmed when it carries the class [opacity-20], and at
    full opacity otherwise. *)
Definition dimmed (cl : list string) : Prop := "opacity-20" ∈ cl.

(** The unselected state: nothing dimmed, no tag remembered. *)
Definition nothing_dimmed (s : State) : Prop :=
  (∀ post, post ∈ posts s → ¬ dimmed (li_classList post))
  ∧ (∀ tag, tag ∈ tags s → ¬ dimmed (classList tag)).

Definition unselected (s : State) : Prop :=
  nothing_dimmed s ∧ last_tag_clicked s = None.

(** From [s] to [s']: the posts whose tags contain the label of [u] are
    highlighted and the others dimmed, the controls with the label of [u]
    are highlighted and the others dimmed, and [u] is remembered. *)
Definition shows_only (u : Button) (s s' : State) : Prop :=
  length (posts s') = length (posts s)
  ∧ length (tags s') = length (tags s)
  ∧ (∀ k post, posts s !! k = Some post →
       ∃ post', posts s' !! k = Some post'
         ∧ spans post' = spans post
         ∧ (dimmed (li_classList post') ↔ innerText u ∉ spans post))
  ∧ (∀ k tag, tags s !! k = Some tag →
       ∃ tag', tags s' !! k = Some tag'
         ∧ innerHTML tag' = innerHTML tag
         ∧ innerText tag' = innerText tag
         ∧ (dimmed (classList tag') ↔ innerHTML tag ≠ innerHTML u))
  ∧ last_tag_clicked s' = Some (innerHTML u).

(** What a page holds besides the dimming: every element with the class
    [opacity-20] taken away. *)
Definition undim_li (post : Li) : Li :=
  {| spans := spans post;
     li_classList := classList_remove "opacity-20" (li_classList post) |}.

Definition undim_button (tag : Button) : Button :=
  {| innerHTML := innerHTML tag; innerText := innerText tag;
     classList := classList_remove "opacity-20" (classList tag) |}.

Definition content (s : State) : list Li * list Button :=
  (map undim_li (posts s), map undim_button (tags s)).

(** A state from which a reset is at hand: nothing is selected, or the
    remembered tag is the markup of a button of the page. *)
Definition resettable (s : State) : Prop :=
  unselected s
  ∨ ∃ i t, tags s !! i = Some t ∧ last_tag_clicked s = Some (innerHTML t).

(** The elements of the page as the browser holds them for a post with
    the given tags and for a tag whose label has no markup character. *)
Definition li_of (tags : list string) : Li :=
  {| spans := sort tags;
     li_classList := ["border"; "border-white/0"; "hover:border-teal-400/50";
                      "hover:bg-teal-300/5"; "hover:shadow-lg";
                      "hover:shadow-teal-400/40"] |}.

Definition button_of (label : string) : Button :=
  {| innerHTML := label; innerText := label;
     classList := ["inline-block"; "mr-2"; "rounded-full"; "px-3"; "py-1";
                   "text-xs"; "font-bold"] |}.

(** The bodies of the two loops, one element at a time. *)
Definition post_update (tag_clicked : string) (post : Li) : Li :=
  if includes (spans post) tag_clicked || bool_decide (tag_clicked = "all")
  then {| spans := spans post; li_classList := classList_remove "opacity-20" (li_classList post) |}
  else {| spans := spans post; li_classList := classList_add "opacity-20" (li_classList post) |}.

Definition button_update (tag_clicked : string) (tag : Button) : Button :=
  if bool_decide (innerHTML tag = tag_clicked) || bool_decide (tag_clicked = "all")
  then {| innerHTML := innerHTML tag; innerText := innerText tag;
          classList := classList_remove "opacity-20" (classList tag) |}
  else {| innerHTML := innerHTML tag; innerText := innerText tag;
          classList := classList_add "opacity-20" (classList tag) |}.

End TagFilterSpec.

(** ** The article page: what the specification says of the scripts *)

Module TocSpec.
Import Js Toc.



(** A plain element, to write pages down. *)
Definition el (name id text : string) (children : list Element) : Element :=
  {| nodeName := name; id := id; className := ""; href := ""; innerText := text;
     marginLeft := css_unset; paddingBottom := css_unset; width := css_unset;
     children := children |}.

(** An article with two level-2 headings and a level-3 heading between
    them, the latter inside a quotation. *)
Definition sample_article : Element :=
  el "ARTICLE" "" ""
    [ el "P" "" "" [ el "TIME" "" "May 26, 2022" []; el "SPAN" "" "" [] ];
      el "DIV" "" ""
        [ el "H1" "" "Callbacks, Promises and Async/Await" [];
          el "P" "" "Callbacks, promises and async/await" [];
          el "H2" "callbacks" "Callbacks" [];
          el "BLOCKQUOTE" "" "" [ el "H3" "the-problem-callback-hell" "The problem: Callback Hell" [] ];
          el "H2" "promises" "Promises" [] ] ].

Definition sample_document : Document :=
  {| dw_blog_article := [sample_article];
     table_of_contents := Some (el "UL" "table-of-contents" "" []);
     post_progress_bar := Some (el "DIV" "post-progress-bar" "" []);
     body_scrollHeight := 4000 |}.

End TocSpec.

(** ** Further notions used for the rest of the code *)

Module MoreSpec.
Import Js Zod Config.

(** [d1] is not older than [d2]; an invalid date compares with nothing. *)
Definition newer_or_same (d1 d2 : Date) : Prop :=
  match d1, d2 with
  | ValidDate x, ValidDate y => (y ≤ x)%Z
  | _, _ => False
  end.

Definition has_valid_date (e : Entry) : Prop :=
  ∃ ms, pubDate (data e) = ValidDate ms.

(** Entries in the order of their dates, oldest first. *)
Definition older_or_same (a b : Entry) : Prop :=
  newer_or_same (pubDate (data b)) (pubDate (data a)).

(** The type the schema asks of the value found under a key. *)
Definition field_typed (k : string) (v : Value) : Prop :=
  if bool_decide (k = "pubDate") then (∃ ms, v = VDate ms) ∨ (∃ s, v = VString s)
  else if bool_decide (k = "tags") then ∃ l, v = VArray (map VString l)
  else if bool_decide (k = "visible") then ∃ b, v = VBool b
  else ∃ s, v = VString s.

(** An issue of the list points into the key [k]. *)
Definition reported (k : string) (issues : list ZodIssue) : Prop :=
  ∃ issue rest, issue ∈ issues ∧ path issue = Key k :: rest.

Definition issues_of {A} (r : SafeParse A) : list ZodIssue :=
  match r with
  | Success _ => []
  | Failure issues => issues
  end.

(** A schema gives at least one issue when it fails. *)
Definition speaks {A} (T : ZodType A) : Prop :=
  ∀ v, issues_of (T v) = [] → ∃ a, T v = Success a.

(** What the reader sees of the filter: which posts and which tag
    controls are dimmed. *)
Definition display (s : TagFilter.State) : list bool * list bool :=
  (map (λ post, bool_decide (TagFilterSpec.dimmed (TagFilter.li_classList post)))
     (TagFilter.posts s),
   map (λ tag, bool_decide (TagFilterSpec.dimmed (TagFilter.classList tag)))
     (TagFilter.tags s)).

(** Two elements with the same name, attributes and style; their
    children, and the text that comes from them, may differ. *)
Definition same_attributes (e e' : Toc.Element) : Prop :=
  Toc.nodeName e' = Toc.nodeName e
  ∧ Toc.id e' = Toc.id e
  ∧ Toc.className e' = Toc.className e
  ∧ Toc.href e' = Toc.href e
  ∧ Toc.marginLeft e' = Toc.marginLeft e
  ∧ Toc.paddingBottom e' = Toc.paddingBottom e
  ∧ Toc.width e' = Toc.width e.


End MoreSpec.

(** * Lemmas and theorems *)

Module SchemaFacts.
Import Js Zod Config SchemaSpec.

Lemma sp_map_success {A B} (f : A → B) r b :
  sp_map f r = Success b ↔ ∃ a, r = Success a ∧ b = f a.
Proof.
  destruct r as [a|i]; simpl; split.
  - intros [= <-]. eauto.
  - intros (a' & [= <-] & ->). reflexivity.
  - discriminate.
  - intros (a' & [=] & _).
Qed.

Lemma sp_ap_success {A B} (rf : SafeParse (A → B)) ra b :
  sp_ap rf ra = Success b ↔ ∃ f a, rf = Success f ∧ ra = Success a ∧ b = f a.
Proof.
  destruct rf as [f|i], ra as [a|j]; simpl; split;
    try discriminate;
    try (intros (f' & a' & Hf & Ha & _); discriminate).
  - intros [= <-]. eauto.
  - intros (f' & a' & [= <-] & [= <-] & ->). reflexivity.
Qed.

Lemma under_success {A} seg (r : SafeParse A) a :
  under seg r = Success a ↔ r = Success a.
Proof. destruct r; simpl; split; congruence. Qed.

Lemma field_success {A} o k (T : ZodType A) a :
  field o k T = Success a ↔ T (prop o k) = Success a.
Proof. apply under_success. Qed.

Lemma z_string_success v s : z_string v = Success s ↔ v = VString s.
Proof. destruct v; simpl; split; congruence. Qed.

Lemma z_boolean_success v b : z_boolean v = Success b ↔ v = VBool b.
Proof. destruct v; simpl; split; congruence. Qed.

Lemma z_date_success v d : z_date v = Success d ↔ ∃ ms, v = VDate ms ∧ d = ValidDate ms.
Proof.
  destruct v; simpl; split; try discriminate;
    try (intros (ms' & [=] & _); fail).
  - intros [= <-]. eauto.
  - intros (ms' & [= <-] & ->). reflexivity.
Qed.

Lemma parse_items_strings i items l :
  parse_items z_string i items = Success l ↔ items = map VString l.
Proof.
  revert i l. induction items as [|v items IH]; intros i l; simpl.
  - split.
    + intros [= <-]. reflexivity.
    + destruct l; [reflexivity|discriminate].
  - rewrite sp_ap_success. split.
    + intros (f & tl & Hf & Htl & ->).
      apply sp_map_success in Hf as (s & Hs & ->).
      apply under_success, z_string_success in Hs as ->.
      apply IH in Htl as ->. reflexivity.
    + destruct l as [|s l]; [discriminate|]. intros [= -> ->].
      exists (cons s), l. split_and!; [reflexivity| |reflexivity].
      apply IH. reflexivity.
Qed.

Lemma z_array_strings v l :
  z_array z_string v = Success l ↔ v = VArray (map VString l).
Proof.
  destruct v; simpl; try (split; congruence).
  rewrite parse_items_strings. split; congruence.
Qed.

Lemma pubDate_success Date_parse v d :
  z_transform (z_or z_string z_date) (new_Date Date_parse) v = Success d
  ↔ (∃ ms, v = VDate ms ∧ d = ValidDate ms) ∨ (∃ s, v = VString s ∧ d = Date_parse s).
Proof.
  unfold z_transform, z_or.
  destruct v; simpl; split; try discriminate;
    try (intros [(? & [=] & _)|(? & [=] & _)]; fail).
  - intros [= <-]. right. eauto.
  - intros [(? & [=] & _)|(s' & [= <-] & ->)]. reflexivity.
  - intros [= <-]. left. eauto.
  - intros [(ms' & [= <-] & ->)|(? & [=] & _)]. reflexivity.
Qed.

(** The schema accepts an object exactly when each field has its type,
    and the article it returns holds the fields as they were given. *)
Lemma blog_success Date_parse raw a :
  blog Date_parse raw = Success a ↔ ∃ o, raw = VObject o ∧ typed_as Date_parse o a.
Proof.
  unfold blog, z_object, typed_as.
  destruct raw as [| | | | | | |o]; try (split; [discriminate|intros (? & [=] & _)]).
  repeat setoid_rewrite sp_ap_success. setoid_rewrite sp_map_success.
  repeat setoid_rewrite field_success.
  setoid_rewrite z_string_success. setoid_rewrite z_boolean_success.
  setoid_rewrite z_array_strings. setoid_rewrite pubDate_success.
  split.
  - intros (f5 & vis & (f4 & tg & (f3 & hero & (f2 & pd & (f1 & desc & (t & Ht & ->) & Hd & ->)
            & Hp & ->) & Hh & ->) & Htg & ->) & Hv & ->).
    exists o. simpl. split_and!; try done.
  - intros (o' & [= <-] & Ht & Hd & Hp & Hh & Htg & Hv). destruct a; simpl in *.
    eexists _, _. split_and!; [|exact Hv|reflexivity].
    eexists _, _. split_and!; [|exact Htg|reflexivity].
    eexists _, _. split_and!; [|exact Hh|reflexivity].
    eexists _, _. split_and!; [|exact Hp|reflexivity].
    eexists _, _. split_and!; [|exact Hd|reflexivity].
    eexists. split; [exact Ht|reflexivity].
Qed.

End SchemaFacts.

Module SchemaTheorems.
Import Js Zod Config SchemaSpec SchemaFacts.

Lemma accepts_or_rejects {A} (T : ZodType A) v : accepts T v ∨ rejects T v.
Proof. unfold accepts, rejects. destruct (T v); eauto. Qed.

Lemma strings_of_items items :
  Forall is_string items → ∃ l, items = map VString l.
Proof.
  induction 1 as [|v items [s ->] _ [l ->]].
  - exists []. reflexivity.
  - exists (s :: l). reflexivity.
Qed.

Lemma items_of_strings l : Forall is_string (map VString l).
Proof. induction l; constructor; [eexists; reflexivity|assumption]. Qed.

Lemma well_typed_iff Date_parse raw :
  well_typed raw ↔ ∃ a o, raw = VObject o ∧ typed_as Date_parse o a.
Proof.
  split.
  - intros (o & -> & [t Ht] & [d Hd] & Hp & [h Hh] & (items & Htg & Hitems) & [b Hb]).
    apply strings_of_items in Hitems as [l ->].
    destruct Hp as [[ms Hp]|[s Hp]].
    + exists (mkArticle t d (ValidDate ms) h l b), o. split; [reflexivity|].
      unfold typed_as; simpl. split_and!; eauto.
    + exists (mkArticle t d (Date_parse s) h l b), o. split; [reflexivity|].
      unfold typed_as; simpl. split_and!; eauto.
  - intros (a & o & -> & Ht & Hd & Hp & Hh & Htg & Hb).
    exists o. split; [reflexivity|]. unfold is_string, is_date, is_boolean, is_string_sequence.
    split_and!; eauto using items_of_strings.
    destruct Hp as [(ms & Hp & _)|(s & Hp & _)]; eauto.
Qed.

Lemma getCollection_fails Date_parse files f :
  f ∈ files → rejects (blog Date_parse) (frontmatter f) → build_fails Date_parse files.
Proof.
  unfold build_fails. induction 1 as [f files|f g files _ IH]; intros Hrej; simpl.
  - destruct Hrej as [issues ->]. eauto.
  - destruct (blog Date_parse (frontmatter g)); [|eauto].
    destruct (IH Hrej) as (file & issues & ->). eauto.
Qed.

(** C5.  The schema accepts a raw frontmatter exactly when [title] and
    [description] are strings, [pubDate] is a date or a string,
    [heroImage] is a string, [tags] is a sequence of strings and
    [visible] is a boolean; the article it returns holds these fields,
    with [pubDate] turned into a [Date]; a record without one of the
    required fields is rejected; and a rejected file stops the build. *)
Theorem blog_schema_validates (Date_parse : string → Date) (raw : Value) :
  (accepts (blog Date_parse) raw ↔ well_typed raw)
  ∧ (∀ a, blog Date_parse raw = Success a →
       ∃ o, raw = VObject o ∧ typed_as Date_parse o a)
  ∧ (∀ o k, raw = VObject o → k ∈ required → o !! k = None →
       rejects (blog Date_parse) raw)
  ∧ (rejects (blog Date_parse) raw →
       ∀ files f, f ∈ files → frontmatter f = raw → build_fails Date_parse files).
Proof.
  split_and!.
  - rewrite (well_typed_iff Date_parse). unfold accepts.
    setoid_rewrite blog_success. naive_solver.
  - intros a Ha. apply blog_success, Ha.
  - intros o k -> Hk Hmiss.
    destruct (accepts_or_rejects (blog Date_parse) (VObject o)) as [[a Ha]|]; [|assumption].
    exfalso. apply blog_success in Ha as (o' & [= <-] & Ht & Hd & Hp & Hh & Htg & Hb).
    unfold prop in *.
    repeat (apply elem_of_cons in Hk as [->|Hk];
            [rewrite Hmiss in *; simpl in *; try discriminate;
             destruct Hp as [(? & [=] & _)|(? & [=] & _)]|]).
    inversion Hk.
  - intros Hrej files f Hf <-. eapply getCollection_fails; eassumption.
Qed.

(** A frontmatter without [title] is rejected and stops the build; the
    frontmatter of [fp-ts.md] is accepted. *)
Lemma blog_schema_validates_witness :
  let Date_parse := λ _ : string, InvalidDate in
  let no_title : Value :=
    VObject (<["description" := VString "d"]> (<["visible" := VBool true]> ∅)) in
  let fp_ts : Value :=
    VObject (<["title" := VString "Introduction to fp-ts"]>
            (<["description" := VString "A practical introduction to fp-ts"]>
            (<["pubDate" := VDate 1694131200000]>
            (<["heroImage" := VString "/images/blog/headers/fp-ts.jpg"]>
            (<["tags" := VArray [VString "typescript"]]>
            (<["visible" := VBool true]> ∅)))))) in
  rejects (blog Date_parse) no_title
  ∧ build_fails Date_parse [{| file_slug := "fp-ts"; frontmatter := fp_ts |};
                            {| file_slug := "draft"; frontmatter := no_title |}]
  ∧ accepts (blog Date_parse) fp_ts.
Proof.
  intros Date_parse no_title fp_ts.
  assert (Hrej : rejects (blog Date_parse) no_title).
  { destruct (blog_schema_validates Date_parse no_title) as (_ & _ & Hmiss & _).
    eapply (Hmiss _ "title"); [reflexivity| |reflexivity].
    unfold required. apply elem_of_cons. left. reflexivity. }
  split_and!.
  - exact Hrej.
  - destruct (blog_schema_validates Date_parse no_title) as (_ & _ & _ & Hbuild).
    eapply (Hbuild Hrej _ {| file_slug := "draft"; frontmatter := no_title |});
      [|reflexivity].
    apply elem_of_cons. right. apply elem_of_cons. left. reflexivity.
  - apply (blog_schema_validates Date_parse fp_ts).
    eexists. split; [reflexivity|].
    unfold is_string, is_date, is_boolean, is_string_sequence.
    split_and!; [eexists; reflexivity|eexists; reflexivity|left; eexists; reflexivity
                |eexists; reflexivity| |eexists; reflexivity].
    eexists. split; [reflexivity|]. repeat constructor. eexists; reflexivity.
Defined.

End SchemaTheorems.

Module IndexFacts.
Import Js Config Index IndexSpec.

Lemma insert_sorted_perm {A} (le : A → A → bool) x l :
  insert_sorted le x l ≡ₚ x :: l.
Proof.
  induction l as [|y l IH]; simpl; [reflexivity|].
  destruct (le x y); [reflexivity|].
  rewrite IH. apply Permutation_swap.
Qed.

Lemma sort_by_perm {A} (le : A → A → bool) l : sort_by le l ≡ₚ l.
Proof.
  unfold sort_by. induction l as [|x l IH]; simpl; [reflexivity|].
  rewrite insert_sorted_perm, IH. reflexivity.
Qed.

Lemma sort_perm l : sort l ≡ₚ l.
Proof. apply sort_by_perm. Qed.

Lemma is_development_spec NODE_ENV :
  is_development NODE_ENV = true ↔ NODE_ENV = Some "development".
Proof. unfold is_development. rewrite bool_decide_eq_true. reflexivity. Qed.

Lemma posts_production NODE_ENV collection :
  NODE_ENV ≠ Some "development" →
  posts NODE_ENV collection ≡ₚ filter (λ post, visible (data post) = true) collection.
Proof.
  intros Hprod. unfold posts, is_development.
  rewrite bool_decide_eq_false_2 by assumption. simpl.
  rewrite sort_by_perm. reflexivity.
Qed.

Lemma posts_development collection :
  posts (Some "development") collection ≡ₚ collection.
Proof. unfold posts. simpl. apply sort_by_perm. Qed.

Lemma posts_list_perm l : posts_list l ≡ₚ map post_item l.
Proof. unfold posts_list. rewrite reverse_Permutation. reflexivity. Qed.

Lemma push_new_spec ts acc :
  NoDup acc →
  NoDup (push_new acc ts) ∧ ∀ t, t ∈ push_new acc ts ↔ t ∈ acc ∨ t ∈ ts.
Proof.
  unfold push_new. revert acc. induction ts as [|tag ts IH]; intros acc Hnd; simpl.
  - split; [assumption|]. intros t. rewrite elem_of_nil. tauto.
  - destruct (includes acc tag) eqn:Hin; unfold includes in Hin; simpl.
    + apply bool_decide_eq_true in Hin.
      destruct (IH acc Hnd) as [Hnd' Hmem]. split; [assumption|].
      intros t. rewrite Hmem, elem_of_cons. split; [tauto|].
      intros [?|[->|?]]; tauto.
    + apply bool_decide_eq_false in Hin.
      assert (Hnd1 : NoDup (acc ++ [tag])).
      { apply NoDup_app. split_and!; [assumption| |apply NoDup_singleton].
        intros x Hx ->%list_elem_of_singleton. contradiction. }
      destruct (IH _ Hnd1) as [Hnd' Hmem]. split; [assumption|].
      intros t. rewrite Hmem, elem_of_app, list_elem_of_singleton, elem_of_cons. tauto.
Qed.

Lemma collect_spec ps acc :
  NoDup acc →
  let all := fold_left (λ acc post, push_new acc (tags (data post))) ps acc in
  NoDup all ∧ ∀ t, t ∈ all ↔ t ∈ acc ∨ ∃ post, post ∈ ps ∧ t ∈ tags (data post).
Proof.
  revert acc. induction ps as [|p ps IH]; intros acc Hnd; simpl.
  - split; [assumption|]. intros t. split; [tauto|].
    intros [?|(post & Hp & _)]; [assumption|]. inversion Hp.
  - destruct (push_new_spec (tags (data p)) acc Hnd) as [Hnd1 Hmem1].
    destruct (IH _ Hnd1) as [Hnd2 Hmem2]. split; [assumption|].
    intros t. rewrite Hmem2, Hmem1. split.
    + intros [[?|?]|(post & Hp & Ht)]; [tauto| |].
      * right. exists p. split; [left|assumption].
      * right. exists post. split; [right|]; assumption.
    + intros [?|(post & Hp & Ht)]; [tauto|].
      apply elem_of_cons in Hp as [->|Hp]; [tauto|]. right. eauto.
Qed.

Lemma tags_list_spec ps :
  NoDup (tags_list ps) ∧ ∀ t, t ∈ tags_list ps ↔ ∃ post, post ∈ ps ∧ t ∈ tags (data post).
Proof.
  unfold tags_list.
  destruct (collect_spec ps [] (NoDup_nil_2)) as [Hnd Hmem]. simpl in *.
  unfold push_new in *. split.
  - rewrite sort_perm. exact Hnd.
  - intros t. rewrite sort_perm, Hmem, elem_of_nil. tauto.
Qed.

End IndexFacts.

Module IndexTheorems.
Import Js Config Index IndexFacts.

(** C4.  Outside development mode ([NODE_ENV] other than
    ['development']) the list view holds, up to order, the items of the
    entries with [visible = true], so an entry with [visible = false] is
    not among the posts shown; in development mode it holds the items of
    all entries and none is left out. *)
Theorem list_view_visibility (NODE_ENV : option string) (collection : list Entry) :
  (is_development NODE_ENV = true ↔ NODE_ENV = Some "development")
  ∧ (NODE_ENV ≠ Some "development" →
       post_items (index_page NODE_ENV collection)
         ≡ₚ map post_item (filter (λ post, visible (data post) = true) collection)
       ∧ ∀ A, visible (data A) = false → A ∉ posts NODE_ENV collection)
  ∧ (NODE_ENV = Some "development" →
       post_items (index_page NODE_ENV collection) ≡ₚ map post_item collection
       ∧ ∀ A, A ∈ collection → A ∈ posts NODE_ENV collection).
Proof.
  split_and!.
  - apply is_development_spec.
  - intros Hprod. simpl. split.
    + rewrite posts_list_perm, (posts_production _ _ Hprod). reflexivity.
    + intros A Hhidden. rewrite (posts_production _ _ Hprod), list_elem_of_filter.
      intros [Hvis _]. congruence.
  - intros ->. simpl. split.
    + rewrite posts_list_perm, posts_development. reflexivity.
    + intros A HA. rewrite posts_development. exact HA.
Qed.

Lemma list_view_visibility_witness :
  let shown :=
    {| slug := "fp-ts";
       data := mkArticle "Introduction to fp-ts" "A practical introduction to fp-ts"
                 (ValidDate 1694131200000) "/images/blog/headers/fp-ts.jpg"
                 ["typescript"] true |} in
  let hidden :=
    {| slug := "draft";
       data := mkArticle "Draft" "Not ready" (ValidDate 1702425600000) "/images/draft.jpg"
                 ["engineering"; "typescript"] false |} in
  (hidden ∉ posts None [shown; hidden])
  ∧ (hidden ∉ posts (Some "production") [shown; hidden])
  ∧ hidden ∈ posts (Some "development") [shown; hidden].
Proof.
  intros shown hidden. split_and!.
  - apply (list_view_visibility None [shown; hidden]); [discriminate|reflexivity].
  - apply (list_view_visibility (Some "production") [shown; hidden]);
      [discriminate|reflexivity].
  - apply (list_view_visibility (Some "development") [shown; hidden]); [reflexivity|].
    apply elem_of_cons. right. apply elem_of_cons. left. reflexivity.
Defined.

(** The page of the two entries above: in production one item and one
    tag control, in development two items, the newest first, and the tag
    controls in order without a repeated label. *)
Example index_page_sample :
  let shown :=
    {| slug := "fp-ts";
       data := mkArticle "Introduction to fp-ts" "A practical introduction to fp-ts"
                 (ValidDate 1694131200000) "/images/blog/headers/fp-ts.jpg"
                 ["typescript"] true |} in
  let hidden :=
    {| slug := "draft";
       data := mkArticle "Draft" "Not ready" (ValidDate 1702425600000) "/images/draft.jpg"
                 ["typescript"; "engineering"] false |} in
  tag_buttons (index_page None [hidden; shown]) = ["typescript"]
  ∧ item_href <$> post_items (index_page None [hidden; shown]) = ["/fp-ts/"]
  ∧ tag_buttons (index_page (Some "development") [hidden; shown])
    = ["engineering"; "typescript"]
  ∧ item_href <$> post_items (index_page (Some "development") [hidden; shown])
    = ["/draft/"; "/fp-ts/"].
Proof. repeat split. Qed.

Lemma elem_of_posts NODE_ENV collection post :
  post ∈ posts NODE_ENV collection
  ↔ post ∈ collection ∧ (NODE_ENV = Some "development" ∨ visible (data post) = true).
Proof.
  destruct (decide (NODE_ENV = Some "development")) as [->|Hprod].
  - rewrite posts_development. tauto.
  - rewrite (posts_production _ _ Hprod), list_elem_of_filter. tauto.
Qed.

(** C6, as the code has it.  The tag controls of the index page carry no
    label twice, and a label is among them exactly when it is a tag of
    an entry of the collection that the page lists: any entry in
    development mode, an entry with [visible = true] otherwise. *)
Theorem tag_controls_of_listed_posts (NODE_ENV : option string) (collection : list Entry) :
  NoDup (tag_buttons (index_page NODE_ENV collection))
  ∧ ∀ t, t ∈ tag_buttons (index_page NODE_ENV collection)
         ↔ ∃ post, post ∈ collection
                   ∧ (NODE_ENV = Some "development" ∨ visible (data post) = true)
                   ∧ t ∈ tags (data post).
Proof.
  simpl. destruct (tags_list_spec (posts NODE_ENV collection)) as [Hnd Hmem].
  split; [exact Hnd|]. intros t. rewrite Hmem.
  split; intros (post & Hpost & Ht); exists post.
  - apply elem_of_posts in Hpost. tauto.
  - rewrite elem_of_posts. tauto.
Qed.

(** C6 as stated fails: outside development mode the tag [engineering],
    which only a hidden entry carries, is a tag of the collection and has
    no control. *)
Lemma hidden_tags_get_no_control :
  let shown :=
    {| slug := "fp-ts";
       data := mkArticle "Introduction to fp-ts" "A practical introduction to fp-ts"
                 (ValidDate 1694131200000) "/images/blog/headers/fp-ts.jpg"
                 ["typescript"] true |} in
  let hidden :=
    {| slug := "draft";
       data := mkArticle "Draft" "Not ready" (ValidDate 1702425600000) "/images/draft.jpg"
                 ["engineering"; "typescript"] false |} in
  tag_buttons (index_page None [shown; hidden]) = ["typescript"]
  ∧ ¬ (∀ t, t ∈ tag_buttons (index_page None [shown; hidden])
            ↔ ∃ post, post ∈ [shown; hidden] ∧ t ∈ tags (data post)).
Proof.
  intros shown hidden. split; [reflexivity|]. intros Hunion.
  assert (Hin : "engineering" ∈ tag_buttons (index_page None [shown; hidden])).
  { apply Hunion. exists hidden. split.
    - apply elem_of_cons. right. apply elem_of_cons. left. reflexivity.
    - apply elem_of_cons. left. reflexivity. }
  vm_compute in Hin. apply list_elem_of_singleton in Hin. discriminate.
Qed.

End IndexTheorems.

Module TagFilterFacts.
Import Js TagFilter TagFilterSpec.

Lemma map_fmap {A B} (f : A → B) l : map f l = f <$> l.
Proof. reflexivity. Qed.

Lemma not_dimmed_remove cl : ¬ dimmed (classList_remove "opacity-20" cl).
Proof. unfold dimmed, classList_remove. rewrite list_elem_of_filter. tauto. Qed.

Lemma dimmed_add cl : dimmed (classList_add "opacity-20" cl).
Proof.
  unfold dimmed, classList_add. case_bool_decide; [assumption|].
  apply elem_of_app. right. apply list_elem_of_singleton. reflexivity.
Qed.

Lemma remove_add cl :
  classList_remove "opacity-20" (classList_add "opacity-20" cl)
  = classList_remove "opacity-20" cl.
Proof.
  unfold classList_remove, classList_add. case_bool_decide; [reflexivity|].
  rewrite filter_app, filter_cons_False by tauto.
  rewrite filter_nil, app_nil_r. reflexivity.
Qed.

Lemma remove_remove cl :
  classList_remove "opacity-20" (classList_remove "opacity-20" cl)
  = classList_remove "opacity-20" cl.
Proof.
  unfold classList_remove. induction cl as [|c cl IH]; [reflexivity|].
  rewrite (filter_cons _ c cl). case_decide.
  - rewrite filter_cons_True by assumption. f_equal. exact IH.
  - exact IH.
Qed.

Lemma updatePosts_eq tc s :
  updatePosts tc s =
  {| posts := post_update tc <$> posts s; tags := tags s;
     last_tag_clicked := last_tag_clicked s |}.
Proof. reflexivity. Qed.

Lemma updateTags_eq tc s :
  updateTags tc s =
  {| posts := posts s; tags := button_update tc <$> tags s;
     last_tag_clicked := last_tag_clicked s |}.
Proof. reflexivity. Qed.

Lemma post_update_spans tc post : spans (post_update tc post) = spans post.
Proof. unfold post_update. destruct (_ || _); reflexivity. Qed.

Lemma post_update_dimmed tc post :
  dimmed (li_classList (post_update tc post)) ↔ (tc ∉ spans post) ∧ tc ≠ "all".
Proof.
  unfold post_update, includes.
  destruct (bool_decide_reflect (tc ∈ spans post)) as [Hin|Hin];
    destruct (bool_decide_reflect (tc = "all")) as [Hall|Hall]; simpl;
    try (split; [intros []%not_dimmed_remove|tauto]).
  split; [tauto|]. intros _. apply dimmed_add.
Qed.

Lemma post_update_undim tc post : undim_li (post_update tc post) = undim_li post.
Proof.
  unfold post_update, undim_li. destruct (_ || _); simpl;
    [rewrite remove_remove|rewrite remove_add]; reflexivity.
Qed.

Lemma button_update_innerHTML tc tag : innerHTML (button_update tc tag) = innerHTML tag.
Proof. unfold button_update. destruct (_ || _); reflexivity. Qed.

Lemma button_update_innerText tc tag : innerText (button_update tc tag) = innerText tag.
Proof. unfold button_update. destruct (_ || _); reflexivity. Qed.

Lemma button_update_dimmed tc tag :
  dimmed (classList (button_update tc tag)) ↔ innerHTML tag ≠ tc ∧ tc ≠ "all".
Proof.
  unfold button_update.
  destruct (bool_decide_reflect (innerHTML tag = tc)) as [Hin|Hin];
    destruct (bool_decide_reflect (tc = "all")) as [Hall|Hall]; simpl;
    try (split; [intros []%not_dimmed_remove|tauto]).
  split; [tauto|]. intros _. apply dimmed_add.
Qed.

Lemma button_update_undim tc tag :
  undim_button (button_update tc tag) = undim_button tag.
Proof.
  unfold button_update, undim_button. destruct (_ || _); simpl;
    [rewrite remove_remove|rewrite remove_add]; reflexivity.
Qed.

(** The two branches of the listener. *)
Lemma on_click_reset tag s :
  last_tag_clicked s = Some (innerHTML tag) →
  on_click tag s =
  {| posts := post_update "all" <$> posts s;
     tags := button_update "all" <$> tags s;
     last_tag_clicked := None |}.
Proof.
  intros Hlast. unfold on_click. rewrite bool_decide_eq_true_2 by congruence.
  reflexivity.
Qed.

Lemma on_click_filter tag s :
  last_tag_clicked s ≠ Some (innerHTML tag) →
  on_click tag s =
  {| posts := post_update (innerText tag) <$> posts s;
     tags := button_update (innerText tag) <$> tags s;
     last_tag_clicked := Some (innerHTML tag) |}.
Proof.
  intros Hlast. unfold on_click. rewrite bool_decide_eq_false_2 by congruence.
  reflexivity.
Qed.

Lemma all_nothing_dimmed ps ts last :
  nothing_dimmed
    {| posts := post_update "all" <$> ps; tags := button_update "all" <$> ts;
       last_tag_clicked := last |}.
Proof.
  split; simpl.
  - intros post (p & -> & _)%list_elem_of_fmap. rewrite post_update_dimmed. tauto.
  - intros tag (t & -> & _)%list_elem_of_fmap. rewrite button_update_dimmed. tauto.
Qed.

Lemma on_click_content tag s : content (on_click tag s) = content s.
Proof.
  unfold on_click, content. case_bool_decide; simpl;
    rewrite !map_fmap, <- !list_fmap_compose; f_equal;
    apply list_fmap_ext; intros ? x _; simpl;
    first [apply post_update_undim|apply button_update_undim].
Qed.

Lemma click_content i s : content (click i s) = content s.
Proof. unfold click. destruct (tags s !! i); [apply on_click_content|reflexivity]. Qed.

Lemma clicks_content cs s : content (clicks cs s) = content s.
Proof.
  unfold clicks. revert s. induction cs as [|i cs IH]; intros s; simpl; [reflexivity|].
  rewrite IH. apply click_content.
Qed.

Lemma on_click_tags_lookup tag s k t :
  tags s !! k = Some t →
  ∃ t', tags (on_click tag s) !! k = Some t' ∧ innerHTML t' = innerHTML t
        ∧ innerText t' = innerText t.
Proof.
  intros Hk. unfold on_click. case_bool_decide; simpl;
    rewrite map_fmap, list_lookup_fmap, Hk; simpl; eexists; split_and!;
    first [reflexivity|apply button_update_innerHTML|apply button_update_innerText].
Qed.

Lemma two_clicks_unselected s i t :
  tags s !! i = Some t →
  last_tag_clicked s ≠ Some (innerHTML t) →
  unselected (click i (click i s)).
Proof.
  intros Hi Hne. unfold click at 2. rewrite Hi.
  destruct (on_click_tags_lookup t s i t Hi) as (t' & Ht' & Hhtml & _).
  unfold click. rewrite Ht'.
  rewrite (on_click_reset t').
  - split; [apply all_nothing_dimmed|reflexivity].
  - rewrite (on_click_filter _ _ Hne). simpl. congruence.
Qed.

Lemma clicks_cons i cs s : clicks (i :: cs) s = clicks cs (click i s).
Proof. reflexivity. Qed.

(** With a button on the page, two clicks at most reset any display. *)
Lemma reset_within_two s :
  tags s ≠ [] → ∃ back, length back ≤ 2 ∧ unselected (clicks back s).
Proof.
  destruct (tags s) as [|t ts] eqn:Hts; [contradiction|]. intros _.
  assert (Hi : tags s !! 0 = Some t) by (rewrite Hts; reflexivity).
  destruct (decide (last_tag_clicked s = Some (innerHTML t))) as [Heq|Hne].
  - exists [0]. split; [simpl; lia|]. rewrite clicks_cons. unfold clicks, click. simpl.
    rewrite Hi, (on_click_reset _ _ Heq). split; [apply all_nothing_dimmed|reflexivity].
  - exists [0; 0]. split; [simpl; lia|]. rewrite !clicks_cons.
    apply (two_clicks_unselected s 0 t Hi Hne).
Qed.

Lemma clicks_tags_nonempty cs s : tags s ≠ [] → tags (clicks cs s) ≠ [].
Proof.
  intros Hne Hnil. pose proof (clicks_content cs s) as Hc.
  unfold content in Hc. injection Hc as _ Htags. rewrite Hnil in Htags.
  destruct (tags s); [contradiction|discriminate].
Qed.

End TagFilterFacts.

Module TagFilterTheorems.
Import Js TagFilter TagFilterSpec TagFilterFacts.

Lemma on_click_shape tag s :
  ∃ tc last,
    on_click tag s =
    {| posts := post_update tc <$> posts s; tags := button_update tc <$> tags s;
       last_tag_clicked := last |}
    ∧ (last = None ∨ last = Some (innerHTML tag)).
Proof.
  destruct (decide (last_tag_clicked s = Some (innerHTML tag))) as [Heq|Hne].
  - exists "all", None. split; [apply on_click_reset, Heq|tauto].
  - exists (innerText tag), (Some (innerHTML tag)).
    split; [apply on_click_filter, Hne|tauto].
Qed.

Lemma click_resettable i s : resettable s → resettable (click i s).
Proof.
  intros Hs. unfold click. destruct (tags s !! i) as [tag|] eqn:Hi; [|exact Hs].
  destruct (decide (last_tag_clicked s = Some (innerHTML tag))) as [Heq|Hne].
  - left. rewrite (on_click_reset _ _ Heq). split; [apply all_nothing_dimmed|reflexivity].
  - right. destruct (on_click_tags_lookup tag s i tag Hi) as (t' & Ht' & Hhtml & _).
    exists i, t'. split; [exact Ht'|].
    rewrite (on_click_filter _ _ Hne). simpl. congruence.
Qed.

Lemma clicks_resettable cs s : resettable s → resettable (clicks cs s).
Proof.
  unfold clicks. revert s. induction cs as [|i cs IH]; intros s Hs; simpl; [exact Hs|].
  apply IH, click_resettable, Hs.
Qed.

Lemma resettable_reset s :
  resettable s → ∃ back, length back ≤ 1 ∧ unselected (clicks back s).
Proof.
  intros [Hs|(i & t & Hi & Hlast)].
  - exists []. split; [simpl; lia|exact Hs].
  - exists [i]. split; [simpl; lia|]. unfold clicks, click. simpl. rewrite Hi.
    rewrite (on_click_reset _ _ Hlast). split; [apply all_nothing_dimmed|reflexivity].
Qed.

(** C2, as the code has it.  For a tag control T that is not the one
    remembered in [last_tag_clicked] (as on a freshly loaded page),
    clicking T twice leaves every post and every tag control at full
    opacity and [last_tag_clicked] empty, and the page holds the same
    elements as before. *)
Theorem double_click_resets (s : State) (i : nat) (t : Button) :
  tags s !! i = Some t →
  last_tag_clicked s ≠ Some (innerHTML t) →
  unselected (click i (click i s)) ∧ content (click i (click i s)) = content s.
Proof.
  intros Hi Hne. split.
  - apply (two_clicks_unselected s i t Hi Hne).
  - rewrite !click_content. reflexivity.
Qed.

Lemma double_click_resets_witness :
  let page := load [li_of ["typescript"]; li_of ["javascript"]]
                   [button_of "javascript"; button_of "typescript"] in
  unselected (click 0 (click 0 page)) ∧ content (click 0 (click 0 page)) = content page.
Proof.
  intros page. apply (double_click_resets page 0 (button_of "javascript")).
  - reflexivity.
  - simpl. discriminate.
Defined.

(** C2 as stated fails: after one click on T the page remembers T, and
    from that display state two more clicks on T end in the filtered
    display, not in the unselected one. *)
Lemma double_click_from_selected_state :
  let page := load [li_of ["typescript"]; li_of ["javascript"]]
                   [button_of "javascript"; button_of "typescript"] in
  let s := click 0 page in
  tags s !! 0 = Some (button_of "javascript")
  ∧ last_tag_clicked (click 0 (click 0 s)) = Some "javascript"
  ∧ ¬ unselected (click 0 (click 0 s)).
Proof.
  intros page s. split_and!; [reflexivity|reflexivity|].
  intros [_ Hlast]. vm_compute in Hlast. discriminate.
Qed.

(** C3, as the code has it.  For two tag controls T and U with different
    markup, where the label of U is not ['all'] and the markup of U is
    its text, clicking T and then U leaves exactly the posts whose tags
    contain the label of U at full opacity and the others dimmed, the
    controls labelled as U at full opacity and the others dimmed, and
    [last_tag_clicked] holding U. *)
Theorem second_tag_replaces_first (s : State) (i j : nat) (t u : Button) :
  tags s !! i = Some t →
  tags s !! j = Some u →
  innerHTML t ≠ innerHTML u →
  innerText u ≠ "all" →
  innerHTML u = innerText u →
  shows_only u s (click j (click i s)).
Proof.
  intros Hi Hj Htu Hall Hplain.
  unfold click at 2. rewrite Hi.
  destruct (on_click_shape t s) as (tc & last & -> & Hlast).
  unfold click. simpl. rewrite list_lookup_fmap, Hj. simpl.
  rewrite on_click_filter;
    [|simpl; rewrite button_update_innerHTML; destruct Hlast as [->| ->]; congruence].
  simpl. rewrite button_update_innerHTML, button_update_innerText.
  unfold shows_only. simpl. rewrite !length_fmap. split_and!; try reflexivity.
  - intros k post Hk. rewrite !list_lookup_fmap, Hk. simpl.
    eexists. split; [reflexivity|]. rewrite !post_update_spans.
    split; [reflexivity|]. rewrite post_update_dimmed, post_update_spans. tauto.
  - intros k tag Hk. rewrite !list_lookup_fmap, Hk. simpl.
    eexists. split; [reflexivity|].
    rewrite !button_update_innerHTML, !button_update_innerText.
    split_and!; try reflexivity.
    rewrite button_update_dimmed, button_update_innerHTML, Hplain. tauto.
Qed.

Lemma second_tag_replaces_first_witness :
  let page := load [li_of ["typescript"]; li_of ["javascript"]]
                   [button_of "javascript"; button_of "typescript"] in
  shows_only (button_of "typescript") page (click 1 (click 0 page)).
Proof.
  intros page.
  apply (second_tag_replaces_first page 0 1 (button_of "javascript") (button_of "typescript"));
    first [reflexivity|simpl; discriminate].
Defined.

(** C3 as stated fails for a tag labelled ['all']: after a click on
    another tag and then on it, the post that does not carry it is not
    dimmed. *)
Lemma second_tag_all_shows_everything :
  let page := load [li_of ["javascript"]; li_of ["all"]]
                   [button_of "all"; button_of "javascript"] in
  tags page !! 1 = Some (button_of "javascript")
  ∧ tags page !! 0 = Some (button_of "all")
  ∧ ¬ shows_only (button_of "all") page (click 0 (click 1 page)).
Proof.
  intros page. split_and!; [reflexivity|reflexivity|].
  intros (_ & _ & Hposts & _).
  destruct (Hposts 0 (li_of ["javascript"]) eq_refl) as (post' & Hpost' & _ & Hdim).
  vm_compute in Hpost'. injection Hpost' as <-.
  assert (Hd : dimmed (li_classList (li_of ["javascript"]))).
  { apply Hdim. simpl. intros [=]%list_elem_of_singleton. }
  unfold dimmed in Hd. simpl in Hd.
  repeat (apply elem_of_cons in Hd as [[=]|Hd]). inversion Hd.
Qed.

(** A label with a markup character: the markup of its control is not
    its text, no control has the clicked text as markup, and the click
    dims the clicked control too. *)
Example markup_label_dims_its_own_control :
  let amp := {| innerHTML := "c&amp;c"; innerText := "c&c"; classList := ["inline-block"] |} in
  let page := load [li_of ["c&c"]; li_of ["javascript"]] [amp; button_of "javascript"] in
  (classList <$> tags (click 0 page))
  = [["inline-block"; "opacity-20"];
     ["inline-block"; "mr-2"; "rounded-full"; "px-3"; "py-1"; "text-xs"; "font-bold";
      "opacity-20"]].
Proof. reflexivity. Qed.

(** C9.  Whatever tag controls are clicked, the page holds the same posts
    and tag controls with the same texts and the same classes apart from
    [opacity-20]: only that class and [last_tag_clicked] change.  The
    display can be brought back to the unselected state: by one more
    click at most when the clicks started on a loaded, unselected page,
    and by two at most from any display of a page with a tag control. *)
Theorem filter_is_presentational (s : State) (cs : list nat) :
  content (clicks cs s) = content s
  ∧ (unselected s →
       ∃ back, length back ≤ 1 ∧ unselected (clicks back (clicks cs s)))
  ∧ (tags s ≠ [] →
       ∃ back, length back ≤ 2 ∧ unselected (clicks back (clicks cs s))).
Proof.
  split_and!.
  - apply clicks_content.
  - intros Hs. apply resettable_reset, clicks_resettable. left. exact Hs.
  - intros Hne. apply reset_within_two, clicks_tags_nonempty, Hne.
Qed.

Lemma loaded_page_unselected :
  unselected (load [li_of ["typescript"]; li_of ["javascript"]]
                   [button_of "javascript"; button_of "typescript"]).
Proof.
  split; [|reflexivity]. split; simpl; unfold dimmed.
  - intros post Hp.
    repeat (apply elem_of_cons in Hp as [->|Hp]);
      [| |inversion Hp]; simpl; intros Hd;
      repeat (apply elem_of_cons in Hd as [[=]|Hd]); inversion Hd.
  - intros tag Hp.
    repeat (apply elem_of_cons in Hp as [->|Hp]);
      [| |inversion Hp]; simpl; intros Hd;
      repeat (apply elem_of_cons in Hd as [[=]|Hd]); inversion Hd.
Qed.

Lemma filter_is_presentational_witness :
  let page := load [li_of ["typescript"]; li_of ["javascript"]]
                   [button_of "javascript"; button_of "typescript"] in
  content (clicks [0; 1; 1; 0] page) = content page
  ∧ (∃ back, length back ≤ 1 ∧ unselected (clicks back (clicks [0; 1; 1; 0] page)))
  ∧ (∃ back, length back ≤ 2 ∧ unselected (clicks back (clicks [0; 1; 1; 0] page))).
Proof.
  intros page.
  destruct (filter_is_presentational page [0; 1; 1; 0]) as (Hsame & Hone & Htwo).
  split_and!.
  - exact Hsame.
  - apply Hone, loaded_page_unselected.
  - apply Htwo. discriminate.
Defined.

Lemma post_update_all_undim post : post_update "all" post = undim_li post.
Proof. unfold post_update. rewrite orb_true_r. reflexivity. Qed.

Lemma button_update_all_undim tag : button_update "all" tag = undim_button tag.
Proof. unfold button_update. rewrite orb_true_r. reflexivity. Qed.

Lemma undim_all_nothing_dimmed ps ts last :
  nothing_dimmed
    {| posts := undim_li <$> ps; tags := undim_button <$> ts;
       last_tag_clicked := last |}.
Proof.
  split; simpl.
  - intros post (p & -> & _)%list_elem_of_fmap. apply not_dimmed_remove.
  - intros tag (t & -> & _)%list_elem_of_fmap. apply not_dimmed_remove.
Qed.

(** C10.  With the input ['all'], [updatePosts] turns every post of the
    page, whatever its tags, into the same post without the class
    [opacity-20] and touches nothing else, and [updateTags] does the
    same to every tag control.  So after a click on a control whose text
    is ['all'] the page holds every post and every control it held, each
    at full opacity, the posts without that tag included; the click
    either resets the remembered tag or remembers the control. *)
Theorem all_is_the_reset_sentinel (s : State) :
  (posts (updatePosts "all" s) = undim_li <$> posts s
   ∧ tags (updatePosts "all" s) = tags s
   ∧ last_tag_clicked (updatePosts "all" s) = last_tag_clicked s)
  ∧ (tags (updateTags "all" s) = undim_button <$> tags s
     ∧ posts (updateTags "all" s) = posts s
     ∧ last_tag_clicked (updateTags "all" s) = last_tag_clicked s)
  ∧ (∀ post, spans (undim_li post) = spans post
             ∧ ¬ dimmed (li_classList (undim_li post)))
  ∧ (∀ tag, innerHTML (undim_button tag) = innerHTML tag
            ∧ innerText (undim_button tag) = innerText tag
            ∧ ¬ dimmed (classList (undim_button tag)))
  ∧ (∀ i t, tags s !! i = Some t → innerText t = "all" →
       posts (click i s) = undim_li <$> posts s
       ∧ tags (click i s) = undim_button <$> tags s
       ∧ nothing_dimmed (click i s)
       ∧ (last_tag_clicked (click i s) = None
          ∨ last_tag_clicked (click i s) = Some (innerHTML t))).
Proof.
  assert (Hposts : ∀ ps : list Li, post_update "all" <$> ps = undim_li <$> ps).
  { intros ps. apply list_fmap_ext. intros ? post _. apply post_update_all_undim. }
  assert (Htags : ∀ ts : list Button, button_update "all" <$> ts = undim_button <$> ts).
  { intros ts. apply list_fmap_ext. intros ? tag _. apply button_update_all_undim. }
  refine (conj _ (conj _ (conj _ (conj _ _)))).
  - rewrite updatePosts_eq. simpl. split_and!; [apply Hposts|reflexivity|reflexivity].
  - rewrite updateTags_eq. simpl. split_and!; [apply Htags|reflexivity|reflexivity].
  - intros post. split; [reflexivity|apply not_dimmed_remove].
  - intros tag. split_and!; [reflexivity|reflexivity|apply not_dimmed_remove].
  - intros i t Hi Hall. unfold click. rewrite Hi.
    destruct (decide (last_tag_clicked s = Some (innerHTML t))) as [Heq|Hne].
    + rewrite (on_click_reset _ _ Heq), Hposts, Htags. simpl.
      split_and!; [reflexivity|reflexivity|apply undim_all_nothing_dimmed|tauto].
    + rewrite (on_click_filter _ _ Hne), Hall, Hposts, Htags. simpl.
      split_and!; [reflexivity|reflexivity|apply undim_all_nothing_dimmed|tauto].
Qed.

Lemma all_is_the_reset_sentinel_witness :
  let page := load [li_of ["javascript"]; li_of ["all"]]
                   [button_of "all"; button_of "javascript"] in
  let s := click 1 page in
  spans <$> posts (click 0 s) = [["javascript"]; ["all"]]
  ∧ posts (click 0 s) = undim_li <$> posts s
  ∧ tags (click 0 s) = undim_button <$> tags s
  ∧ nothing_dimmed (click 0 s)
  ∧ (last_tag_clicked (click 0 s) = None
     ∨ last_tag_clicked (click 0 s) = Some "all").
Proof.
  intros page s. split; [reflexivity|].
  destruct (all_is_the_reset_sentinel s) as (_ & _ & _ & _ & Hclick).
  apply (Hclick 0 (button_update "javascript" (button_of "all"))); reflexivity.
Defined.

End TagFilterTheorems.

Module TocFacts.
Import Js Toc TocSpec.

Lemma appendChild_children parent child :
  children (appendChild parent child) = children parent ++ [child].
Proof. reflexivity. Qed.

Lemma forEach_children ks toc :
  children (fold_left (λ toc k, appendChild toc (toc_item k)) ks toc)
  = children toc ++ map toc_item ks.
Proof.
  revert toc. induction ks as [|k ks IH]; intros toc; simpl.
  - rewrite app_nil_r. reflexivity.
  - rewrite IH, appendChild_children, <- app_assoc. reflexivity.
Qed.

Lemma is_subheading_spec e :
  is_subheading e = true ↔ nodeName e = "H2" ∨ nodeName e = "H3".
Proof.
  unfold is_subheading. rewrite orb_true_iff, !bool_decide_eq_true. reflexivity.
Qed.






End TocFacts.

Module TocTheorems.
Import Js Toc TocSpec TocFacts.

(** C1, as the code has it.  Without an article container the generator
    ends normally and leaves the page as it is.  The other two elements
    are read without a check: with an article but no table-of-contents
    list the generator ends in a [TypeError], and without the progress
    bar so does the scroll listener. *)
Theorem missing_article_is_a_noop (d : Document) (w : Window) :
  (dw_blog_article d = [] → generateTableOfContents d = Normal d)
  ∧ (dw_blog_article d ≠ [] → table_of_contents d = None →
       generateTableOfContents d = Throw TypeError)
  ∧ (post_progress_bar d = None → on_scroll w d = Throw TypeError).
Proof.
  unfold generateTableOfContents, on_scroll. split_and!.
  - intros ->. reflexivity.
  - intros Ha ->. destruct (dw_blog_article d); [contradiction|reflexivity].
  - intros ->. reflexivity.
Qed.

Lemma missing_article_is_a_noop_witness :
  let no_article :=
    {| dw_blog_article := []; table_of_contents := None;
       post_progress_bar := None; body_scrollHeight := 900 |} in
  let no_list :=
    {| dw_blog_article := [sample_article]; table_of_contents := None;
       post_progress_bar := None; body_scrollHeight := 4000 |} in
  let w := {| scrollY := 120; innerHeight := 800 |} in
  generateTableOfContents no_article = Normal no_article
  ∧ generateTableOfContents no_list = Throw TypeError
  ∧ on_scroll w no_list = Throw TypeError.
Proof.
  intros no_article no_list w. split_and!.
  - apply (missing_article_is_a_noop no_article w). reflexivity.
  - apply (missing_article_is_a_noop no_list w); first [discriminate|reflexivity].
  - apply (missing_article_is_a_noop no_list w). reflexivity.
Defined.

(** C1 as stated fails: on a page with an article but without the
    table-of-contents list and without the progress bar, neither script
    ends normally. *)
Lemma missing_list_or_bar_throws :
  let d :=
    {| dw_blog_article := [sample_article]; table_of_contents := None;
       post_progress_bar := None; body_scrollHeight := 4000 |} in
  let w := {| scrollY := 120; innerHeight := 800 |} in
  generateTableOfContents d ≠ Normal d ∧ on_scroll w d ≠ Normal d.
Proof. intros d w. split; discriminate. Qed.



(** Scrolling the sample page: a fifth of the way down the bar gets its
    width; on a page as high as the window the quotient is no number and
    the bar keeps the width it had. *)
Example scroll_sample :
  (∃ d bar,
     on_scroll {| scrollY := 640; innerHeight := 800 |} sample_document = Normal d
     ∧ post_progress_bar d = Some bar
     ∧ width bar = css_percent 640 3200)
  ∧ on_scroll {| scrollY := 0; innerHeight := 4000 |} sample_document
    = Normal sample_document.
Proof. split; [eexists _, _; split_and!; reflexivity|reflexivity]. Qed.

(** The entries of the sample article, in document order. *)
Example sample_toc :
  ∃ d', generateTableOfContents sample_document = Normal d'
    ∧ (λ li, (λ a, (href a, marginLeft a)) <$> children li)
        <$> (default [] (children <$> table_of_contents d'))
      = [ [("#callbacks", css "0rem")];
          [("#the-problem-callback-hell", css "1rem")];
          [("#promises", css "0rem")] ].
Proof. eexists. split; reflexivity. Qed.

(** C8.  When the table-of-contents list already has entries the
    generator leaves the page as it is, and running the generator again
    on the page it produced changes nothing. *)
Theorem toc_built_at_most_once (d : Document) :
  (∀ toc, table_of_contents d = Some toc → children toc ≠ [] →
     generateTableOfContents d = Normal d)
  ∧ (∀ d', generateTableOfContents d = Normal d' →
       generateTableOfContents d' = Normal d').
Proof.
  split.
  - intros toc Ht Hc. unfold generateTableOfContents. rewrite Ht.
    destruct (dw_blog_article d); [reflexivity|].
    destruct (children toc); [contradiction|reflexivity].
  - intros d'. unfold generateTableOfContents.
    destruct (dw_blog_article d) as [|article rest] eqn:Ha.
    { intros [= <-]. rewrite Ha. reflexivity. }
    destruct (table_of_contents d) as [toc|] eqn:Ht; [|discriminate].
    destruct (children toc) as [|c cs] eqn:Hc; simpl.
    + intros [= <-]. simpl. rewrite Ha.
      rewrite forEach_children, Hc. simpl.
      destruct (querySelectorAll_h2_h3 article) as [|k ks]; reflexivity.
    + intros [= <-]. rewrite Ha, Ht, Hc. reflexivity.
Qed.

Lemma toc_built_at_most_once_witness :
  ∃ d', generateTableOfContents sample_document = Normal d'
    ∧ d' ≠ sample_document
    ∧ generateTableOfContents d' = Normal d'.
Proof.
  eexists. split; [reflexivity|]. split; [discriminate|].
  apply (toc_built_at_most_once sample_document). reflexivity.
Defined.

End TocTheorems.

(** ** More on the index page: order, hidden posts and routes *)

Module IndexMore.
Import Js Config Index IndexSpec IndexFacts MoreSpec.

Lemma older_or_same_trans a b c :
  older_or_same a b → older_or_same b c → older_or_same a c.
Proof.
  unfold older_or_same, newer_or_same.
  destruct (pubDate (data a)), (pubDate (data b)), (pubDate (data c)); try tauto. lia.
Qed.

Lemma keeps_order_valid a b :
  has_valid_date a → has_valid_date b →
  (keeps_order (by_pubDate a b) = true → older_or_same a b)
  ∧ (keeps_order (by_pubDate a b) = false → older_or_same b a).
Proof.
  intros [x Hx] [y Hy]. unfold by_pubDate, older_or_same, newer_or_same.
  rewrite Hx, Hy. simpl. split; intros H; lia.
Qed.

Lemma insert_by_date x l :
  has_valid_date x → Forall has_valid_date l →
  StronglySorted older_or_same l →
  StronglySorted older_or_same
    (insert_sorted (λ a b, keeps_order (by_pubDate a b)) x l).
Proof.
  intros Hx Hl Hs. induction Hs as [|y l Hs IH Hall]; simpl.
  - repeat constructor.
  - apply Forall_cons in Hl as [Hy Hl].
    destruct (keeps_order_valid x y Hx Hy) as [Hle Hgt].
    destruct (keeps_order (by_pubDate x y)).
    + constructor; [constructor; assumption|].
      constructor; [auto|].
      eapply Forall_impl; [exact Hall|].
      intros z Hz. eapply older_or_same_trans; [apply Hle; reflexivity|exact Hz].
    + constructor; [apply IH, Hl|].
      rewrite insert_sorted_perm. constructor; [auto|exact Hall].
Qed.

Lemma sort_by_date l :
  Forall has_valid_date l →
  StronglySorted older_or_same (sort_by (λ a b, keeps_order (by_pubDate a b)) l).
Proof.
  unfold sort_by. induction 1 as [|x l Hx Hl IH]; simpl; [constructor|].
  apply insert_by_date; [exact Hx| |exact IH].
  fold (sort_by (λ a b, keeps_order (by_pubDate a b)) l).
  rewrite sort_by_perm. exact Hl.
Qed.

Lemma StronglySorted_filter {A} (R : relation A) (P : A → Prop)
    `{∀ x, Decision (P x)} l :
  StronglySorted R l → StronglySorted R (filter P l).
Proof.
  induction 1 as [|x l Hs IH Hall]; [constructor|].
  rewrite filter_cons. destruct (decide (P x)); [|exact IH].
  constructor; [exact IH|].
  apply Forall_forall. intros y [_ Hy]%list_elem_of_filter.
  rewrite Forall_forall in Hall. auto.
Qed.

Lemma StronglySorted_reverse {A} (R : relation A) l :
  StronglySorted R l → StronglySorted (flip R) (reverse l).
Proof.
  induction 1 as [|x l Hs IH Hall]; [constructor|].
  rewrite reverse_cons. apply StronglySorted_app_2.
  - intros x1 x2 Hx1 ->%list_elem_of_singleton.
    rewrite elem_of_reverse in Hx1.
    rewrite Forall_forall in Hall. apply Hall, Hx1.
  - exact IH.
  - repeat constructor.
Qed.

Lemma posts_by_date NODE_ENV collection :
  Forall has_valid_date collection →
  StronglySorted older_or_same (posts NODE_ENV collection).
Proof.
  intros Hvalid. unfold posts.
  destruct (negb (is_development NODE_ENV));
    [apply StronglySorted_filter|]; apply sort_by_date, Hvalid.
Qed.

(** X1.  When every entry of the collection has a valid date, the list
    view runs from the newest post to the oldest: each item is not older
    than any item after it. *)
Theorem list_view_newest_first (NODE_ENV : option string) (collection : list Entry) :
  Forall has_valid_date collection →
  StronglySorted (λ i j, newer_or_same (item_date i) (item_date j))
    (post_items (index_page NODE_ENV collection)).
Proof.
  intros Hvalid. simpl. unfold posts_list.
  change (map post_item) with (fmap (M:=list) post_item).
  apply (StronglySorted_fmap post_item (flip older_or_same)).
  - intros a b Hab. exact Hab.
  - apply StronglySorted_reverse, posts_by_date, Hvalid.
Qed.

Lemma list_view_newest_first_witness :
  let older :=
    {| slug := "promises";
       data := mkArticle "Callbacks, Promises and Async/Await" "The evolution"
                 (ValidDate 1653523200000) "/images/blog/headers/promises.jpg"
                 ["javascript"] true |} in
  let newer :=
    {| slug := "fp-ts";
       data := mkArticle "Introduction to fp-ts" "A practical introduction to fp-ts"
                 (ValidDate 1694131200000) "/images/blog/headers/fp-ts.jpg"
                 ["typescript"] true |} in
  StronglySorted (λ i j, newer_or_same (item_date i) (item_date j))
    (post_items (index_page None [newer; older; newer])).
Proof.
  intros older newer. apply (list_view_newest_first None [newer; older; newer]).
  repeat constructor; eexists; reflexivity.
Defined.

(** X3.  Outside development mode a label has a tag control exactly when
    it is a tag of an entry with [visible = true]: the tags that only
    hidden entries carry get no control. *)
Theorem production_controls_from_visible_posts
    (NODE_ENV : option string) (collection : list Entry) (t : string) :
  NODE_ENV ≠ Some "development" →
  t ∈ tag_buttons (index_page NODE_ENV collection)
  ↔ ∃ post, post ∈ collection ∧ visible (data post) = true ∧ t ∈ tags (data post).
Proof.
  intros Hprod. simpl.
  destruct (tags_list_spec (posts NODE_ENV collection)) as [_ Hmem]. rewrite Hmem.
  split; intros (post & Hpost & Ht); exists post.
  - rewrite (posts_production _ _ Hprod), list_elem_of_filter in Hpost. tauto.
  - rewrite (posts_production _ _ Hprod), list_elem_of_filter. tauto.
Qed.

Lemma production_controls_from_visible_posts_witness :
  let shown :=
    {| slug := "fp-ts";
       data := mkArticle "Introduction to fp-ts" "A practical introduction to fp-ts"
                 (ValidDate 1694131200000) "/images/blog/headers/fp-ts.jpg"
                 ["typescript"] true |} in
  let hidden :=
    {| slug := "draft";
       data := mkArticle "Draft" "Not ready" (ValidDate 1702425600000) "/images/draft.jpg"
                 ["engineering"; "typescript"] false |} in
  "engineering" ∉ tag_buttons (index_page None [shown; hidden]).
Proof.
  intros shown hidden Hin.
  apply (production_controls_from_visible_posts None [shown; hidden] "engineering")
    in Hin as (post & Hpost & Hvis & Ht); [|discriminate].
  apply elem_of_cons in Hpost as [->|Hpost].
  - simpl in Ht. apply list_elem_of_singleton in Ht. discriminate.
  - apply list_elem_of_singleton in Hpost as ->. discriminate.
Defined.

End IndexMore.

(** ** More on the tag filter: single clicks, round trips, history *)

Module TagFilterMore.
Import Js TagFilter TagFilterSpec TagFilterFacts MoreSpec.

Lemma remove_not_dimmed cl :
  ¬ dimmed cl → classList_remove "opacity-20" cl = cl.
Proof.
  unfold dimmed, classList_remove. induction cl as [|c cl IH]; intros Hd; [reflexivity|].
  rewrite not_elem_of_cons in Hd. destruct Hd as [Hc Hd].
  rewrite filter_cons_True by congruence. f_equal. apply IH, Hd.
Qed.

Lemma post_update_all post :
  post_update "all" post
  = {| spans := spans post;
       li_classList := classList_remove "opacity-20" (li_classList post) |}.
Proof. unfold post_update. rewrite orb_true_r. reflexivity. Qed.

Lemma button_update_all tag :
  button_update "all" tag
  = {| innerHTML := innerHTML tag; innerText := innerText tag;
       classList := classList_remove "opacity-20" (classList tag) |}.
Proof. unfold button_update. rewrite orb_true_r. reflexivity. Qed.

Lemma post_update_undo tc post :
  ¬ dimmed (li_classList post) → post_update "all" (post_update tc post) = post.
Proof.
  intros Hd. rewrite post_update_all.
  change (undim_li (post_update tc post) = post). rewrite post_update_undim.
  unfold undim_li. rewrite (remove_not_dimmed _ Hd). destruct post; reflexivity.
Qed.

Lemma button_update_undo tc tag :
  ¬ dimmed (classList tag) → button_update "all" (button_update tc tag) = tag.
Proof.
  intros Hd. rewrite button_update_all.
  change (undim_button (button_update tc tag) = tag). rewrite button_update_undim.
  unfold undim_button. rewrite (remove_not_dimmed _ Hd). destruct tag; reflexivity.
Qed.

(** X5.  On a page where nothing is selected, two clicks on the same tag
    control give back the very same page: every class list is as it was,
    token for token, and no tag is remembered. *)
Theorem double_click_round_trip (s : State) (i : nat) (t : Button) :
  unselected s →
  tags s !! i = Some t →
  click i (click i s) = s.
Proof.
  intros [[Hposts Htags] Hlast] Hi.
  unfold click at 2. rewrite Hi.
  rewrite on_click_filter by (rewrite Hlast; discriminate).
  unfold click. simpl. rewrite list_lookup_fmap, Hi. simpl.
  rewrite on_click_reset by (simpl; rewrite button_update_innerHTML; reflexivity).
  simpl. rewrite <- !list_fmap_compose.
  destruct s as [ps ts last]. simpl in *. subst last. f_equal.
  - rewrite <- (list_fmap_id ps) at 2. apply list_fmap_ext.
    intros k post Hk. simpl. apply post_update_undo, Hposts.
    eapply list_elem_of_lookup_2, Hk.
  - rewrite <- (list_fmap_id ts) at 2. apply list_fmap_ext.
    intros k tag Hk. simpl. apply button_update_undo, Htags.
    eapply list_elem_of_lookup_2, Hk.
Qed.

Lemma double_click_round_trip_witness :
  let page := load [li_of ["typescript"]; li_of ["javascript"]]
                   [button_of "javascript"; button_of "typescript"] in
  click 1 (click 1 page) = page.
Proof.
  intros page. apply (double_click_round_trip page 1 (button_of "typescript")).
  - split; [|reflexivity]. split; simpl; unfold dimmed.
    + intros post Hp.
      repeat (apply elem_of_cons in Hp as [->|Hp]);
        [| |inversion Hp]; simpl; intros Hd;
        repeat (apply elem_of_cons in Hd as [[=]|Hd]); inversion Hd.
    + intros tag Hp.
      repeat (apply elem_of_cons in Hp as [->|Hp]);
        [| |inversion Hp]; simpl; intros Hd;
        repeat (apply elem_of_cons in Hd as [[=]|Hd]); inversion Hd.
  - reflexivity.
Defined.

(** X6.  One click on a tag control T that is not the remembered one and
    whose text is not ['all']: T is remembered; a post is dimmed exactly
    when none of its spans has the text of T, so a post without tags is
    dimmed; and a tag control is dimmed exactly when its markup is not the
    text of T.  None of this depends on what was dimmed before. *)
Theorem first_click_filters (s : State) (i : nat) (t : Button) :
  tags s !! i = Some t →
  last_tag_clicked s ≠ Some (innerHTML t) →
  innerText t ≠ "all" →
  last_tag_clicked (click i s) = Some (innerHTML t)
  ∧ (∀ k post, posts s !! k = Some post →
       ∃ post', posts (click i s) !! k = Some post'
         ∧ spans post' = spans post
         ∧ (dimmed (li_classList post') ↔ innerText t ∉ spans post)
         ∧ (spans post = [] → dimmed (li_classList post')))
  ∧ (∀ k tag, tags s !! k = Some tag →
       ∃ tag', tags (click i s) !! k = Some tag'
         ∧ innerHTML tag' = innerHTML tag
         ∧ innerText tag' = innerText tag
         ∧ (dimmed (classList tag') ↔ innerHTML tag ≠ innerText t)).
Proof.
  intros Hi Hne Hall. unfold click. rewrite Hi, (on_click_filter _ _ Hne). simpl.
  split_and!; [reflexivity| |].
  - intros k post Hk. rewrite list_lookup_fmap, Hk. simpl.
    eexists. split; [reflexivity|]. rewrite post_update_spans, post_update_dimmed.
    split_and!; [reflexivity|tauto|].
    intros ->. split; [apply not_elem_of_nil|exact Hall].
  - intros k tag Hk. rewrite list_lookup_fmap, Hk. simpl.
    eexists. split; [reflexivity|].
    rewrite button_update_innerHTML, button_update_innerText, button_update_dimmed.
    split_and!; [reflexivity|reflexivity|tauto].
Qed.

Lemma first_click_filters_witness :
  let page := load [li_of ["typescript"]; li_of []]
                   [button_of "javascript"; button_of "typescript"] in
  last_tag_clicked (click 1 page) = Some "typescript"
  ∧ ∃ post', posts (click 1 page) !! 1 = Some post' ∧ dimmed (li_classList post').
Proof.
  intros page.
  destruct (first_click_filters page 1 (button_of "typescript"))
    as (Hlast & Hposts & _); [reflexivity|discriminate|discriminate|].
  split; [exact Hlast|].
  destruct (Hposts 1 (li_of []) eq_refl) as (post' & Hk & _ & _ & Hempty).
  exists post'. split; [exact Hk|]. apply Hempty. reflexivity.
Defined.

Lemma fmap_eq_Forall2 {A B} (f : A → B) l1 l2 :
  f <$> l1 = f <$> l2 → Forall2 (λ a b, f a = f b) l1 l2.
Proof.
  revert l2. induction l1 as [|a l1 IH]; intros [|b l2]; simpl; try discriminate.
  - constructor.
  - intros [= Hab Hl]. constructor; [exact Hab|apply IH, Hl].
Qed.

Lemma Forall2_fmap_eq {A B} (f g : A → B) l1 l2 :
  Forall2 (λ a b, f a = g b) l1 l2 → f <$> l1 = g <$> l2.
Proof. induction 1; simpl; [reflexivity|f_equal; assumption]. Qed.

Lemma undim_li_spans p1 p2 : undim_li p1 = undim_li p2 → spans p1 = spans p2.
Proof. intros [= H _]. exact H. Qed.

Lemma undim_button_texts t1 t2 :
  undim_button t1 = undim_button t2 →
  innerHTML t1 = innerHTML t2 ∧ innerText t1 = innerText t2.
Proof. intros [= H1 H2 _]. split; assumption. Qed.

(** X7.  What a click shows depends on the page and on the remembered
    tag only, never on what was dimmed before: from two states with the
    same elements and the same remembered tag, a click on the same
    control dims the same posts and the same controls and remembers the
    same tag. *)
Theorem click_forgets_previous_dimming (s1 s2 : State) (i : nat) (t : Button) :
  content s1 = content s2 →
  last_tag_clicked s1 = last_tag_clicked s2 →
  tags s1 !! i = Some t →
  display (click i s1) = display (click i s2)
  ∧ last_tag_clicked (click i s1) = last_tag_clicked (click i s2).
Proof.
  intros Hcontent Hlast Hi. unfold content in Hcontent.
  injection Hcontent as Hps Hts.
  apply (fmap_eq_Forall2 undim_li) in Hps.
  apply (fmap_eq_Forall2 undim_button) in Hts.
  destruct (Forall2_lookup_l _ _ _ _ _ Hts Hi) as (t2 & Hi2 & Ht2).
  apply undim_button_texts in Ht2 as [Hhtml Htext].
  assert (Hshape : ∃ tc last,
    on_click t s1 = {| posts := post_update tc <$> posts s1;
                       tags := button_update tc <$> tags s1;
                       last_tag_clicked := last |}
    ∧ on_click t2 s2 = {| posts := post_update tc <$> posts s2;
                          tags := button_update tc <$> tags s2;
                          last_tag_clicked := last |}).
  { destruct (decide (last_tag_clicked s1 = Some (innerHTML t))) as [Heq|Hne].
    - exists "all", None. split; apply on_click_reset; congruence.
    - exists (innerText t), (Some (innerHTML t)). split; [apply on_click_filter, Hne|].
      rewrite Htext, Hhtml. apply on_click_filter. congruence. }
  destruct Hshape as (tc & last & H1 & H2).
  unfold click. rewrite Hi, Hi2, H1, H2. split; [|reflexivity].
  unfold display. simpl. rewrite !map_fmap, <- !list_fmap_compose. f_equal.
  - apply Forall2_fmap_eq. eapply Forall2_impl; [exact Hps|].
    intros p1 p2 Hp%undim_li_spans. simpl. apply bool_decide_ext.
    rewrite !post_update_dimmed, Hp. reflexivity.
  - apply Forall2_fmap_eq. eapply Forall2_impl; [exact Hts|].
    intros b1 b2 [Hh _]%undim_button_texts. simpl. apply bool_decide_ext.
    rewrite !button_update_dimmed, Hh. reflexivity.
Qed.

Lemma click_forgets_previous_dimming_witness :
  let page := load [li_of ["typescript"]; li_of ["javascript"]]
                   [button_of "javascript"; button_of "typescript"] in
  let s1 := set_last_tag_clicked None (click 0 page) in
  display (click 1 s1) = display (click 1 page)
  ∧ last_tag_clicked (click 1 s1) = last_tag_clicked (click 1 page).
Proof.
  intros page s1.
  apply (click_forgets_previous_dimming s1 page 1
           (button_update "javascript" (button_of "typescript")));
    reflexivity.
Defined.

End TagFilterMore.

(** ** More on the article page: what the scripts leave alone *)

Module TocMore.
Import Js Toc TocSpec TocFacts MoreSpec.

Lemma forEach_same_attributes ks toc :
  same_attributes toc (fold_left (λ toc k, appendChild toc (toc_item k)) ks toc).
Proof.
  revert toc. induction ks as [|k ks IH]; intros toc; simpl.
  - unfold same_attributes. split_and!; reflexivity.
  - destruct (IH (appendChild toc (toc_item k))) as (H1 & H2 & H3 & H4 & H5 & H6 & H7).
    unfold same_attributes. split_and!; assumption.
Qed.

Lemma toc_items_are_li ks : Forall (λ li, nodeName li = "LI") (map toc_item ks).
Proof. induction ks; constructor; [reflexivity|assumption]. Qed.

(** X8.  On a page that has the table-of-contents list the generator
    never throws, and it only appends to that list: the articles and the
    progress bar are as before, the list keeps its name, id, classes and
    style, the entries already there are kept in place, and what is
    added are [<li>] elements. *)
Theorem toc_generator_frame (d : Document) (toc : Element) :
  table_of_contents d = Some toc →
  ∃ d' toc' added,
    generateTableOfContents d = Normal d'
    ∧ dw_blog_article d' = dw_blog_article d
    ∧ post_progress_bar d' = post_progress_bar d
    ∧ table_of_contents d' = Some toc'
    ∧ same_attributes toc toc'
    ∧ children toc' = children toc ++ added
    ∧ Forall (λ li, nodeName li = "LI") added.
Proof.
  intros Ht. unfold generateTableOfContents. rewrite Ht.
  assert (Hsame : ∃ d' toc' added, Normal d = Normal d'
    ∧ dw_blog_article d' = dw_blog_article d
    ∧ post_progress_bar d' = post_progress_bar d
    ∧ table_of_contents d' = Some toc'
    ∧ same_attributes toc toc'
    ∧ children toc' = children toc ++ added
    ∧ Forall (λ li, nodeName li = "LI") added).
  { exists d, toc, []. rewrite app_nil_r. unfold same_attributes.
    split_and!; try reflexivity; [exact Ht|constructor]. }
  destruct (dw_blog_article d) as [|article rest] eqn:Ha; [exact Hsame|].
  destruct (negb (length (children toc) =? 0)); [exact Hsame|].
  eexists _, _, (map toc_item (querySelectorAll_h2_h3 article)).
  split; [reflexivity|]. simpl.
  split_and!; try reflexivity.
  - exact Ha.
  - apply forEach_same_attributes.
  - apply forEach_children.
  - apply toc_items_are_li.
Qed.

Lemma toc_generator_frame_witness :
  ∃ d' toc' added,
    generateTableOfContents sample_document = Normal d'
    ∧ dw_blog_article d' = dw_blog_article sample_document
    ∧ post_progress_bar d' = post_progress_bar sample_document
    ∧ table_of_contents d' = Some toc'
    ∧ same_attributes (el "UL" "table-of-contents" "" []) toc'
    ∧ children toc' = children (el "UL" "table-of-contents" "" []) ++ added
    ∧ Forall (λ li, nodeName li = "LI") added.
Proof.
  apply (toc_generator_frame sample_document (el "UL" "table-of-contents" "" [])).
  reflexivity.
Defined.





End TocMore.

(** ** More on the schema: keys outside the shape, and the issues *)

Module SchemaMore.
Import Js Zod Config SchemaSpec SchemaFacts MoreSpec.

Lemma prop_insert_ne o k k' v : k ≠ k' → prop (<[k := v]> o) k' = prop o k'.
Proof. intros Hne. unfold prop. rewrite lookup_insert_ne by exact Hne. reflexivity. Qed.

(** X11.  A key outside the shape of the schema has no effect: with or
    without it, whatever its value, the schema gives the same article or
    the same issues. *)
Theorem unknown_keys_are_ignored (Date_parse : string → Date)
    (o : gmap string Value) (k : string) (v : Value) :
  k ∉ required →
  blog Date_parse (VObject (<[k := v]> o)) = blog Date_parse (VObject o).
Proof.
  intros Hk. unfold required in Hk. rewrite !not_elem_of_cons in Hk.
  destruct Hk as (H1 & H2 & H3 & H4 & H5 & H6 & _).
  unfold blog, z_object, field.
  rewrite !prop_insert_ne by assumption. reflexivity.
Qed.

Lemma unknown_keys_are_ignored_witness :
  let Date_parse := λ _ : string, InvalidDate in
  let o : gmap string Value :=
    <["title" := VString "Introduction to fp-ts"]>
    (<["pubDate" := VDate 1694131200000]> ∅) in
  blog Date_parse (VObject (<["draft" := VBool true]> o)) = blog Date_parse (VObject o).
Proof.
  intros Date_parse o. apply (unknown_keys_are_ignored Date_parse o "draft" (VBool true)).
  unfold required. rewrite !not_elem_of_cons.
  split_and!; try discriminate. apply not_elem_of_nil.
Defined.

Lemma issues_of_sp_map {A B} (f : A → B) r : issues_of (sp_map f r) = issues_of r.
Proof. destruct r; reflexivity. Qed.

Lemma issues_of_sp_ap {A B} (rf : SafeParse (A → B)) ra :
  issues_of (sp_ap rf ra) = issues_of rf ++ issues_of ra.
Proof. destruct rf, ra; simpl; rewrite ?app_nil_r; reflexivity. Qed.

Lemma issues_of_under {A} seg (r : SafeParse A) :
  issues_of (under seg r)
  = (λ issue, {| code := code issue; path := seg :: path issue |}) <$> issues_of r.
Proof. destruct r; reflexivity. Qed.

Lemma reported_app k l1 l2 : reported k (l1 ++ l2) ↔ reported k l1 ∨ reported k l2.
Proof.
  unfold reported. setoid_rewrite elem_of_app. split.
  - intros (issue & rest & [H|H] & Hp); [left|right]; eauto.
  - intros [(issue & rest & H & Hp)|(issue & rest & H & Hp)]; eauto 6.
Qed.

Lemma reported_under k k' (l : list ZodIssue) :
  reported k ((λ issue, {| code := code issue; path := Key k' :: path issue |}) <$> l)
  ↔ k = k' ∧ l ≠ [].
Proof.
  unfold reported. split.
  - intros (issue & rest & (i0 & -> & Hi0)%list_elem_of_fmap & [= <- _]).
    split; [reflexivity|]. intros ->. inversion Hi0.
  - intros [-> Hl]. destruct l as [|i0 l]; [contradiction|].
    exists {| code := code i0; path := Key k' :: path i0 |}, (path i0).
    split; [left|reflexivity].
Qed.

Lemma speaks_z_string : speaks z_string.
Proof. intros v. destruct v; simpl; try discriminate. eauto. Qed.

Lemma speaks_z_boolean : speaks z_boolean.
Proof. intros v. destruct v; simpl; try discriminate. eauto. Qed.

Lemma speaks_pubDate Date_parse :
  speaks (z_transform (z_or z_string z_date) (new_Date Date_parse)).
Proof. intros v. destruct v; simpl; try discriminate; eauto. Qed.

Lemma parse_items_speaks i items :
  issues_of (parse_items z_string i items) = [] →
  ∃ l, parse_items z_string i items = Success l.
Proof.
  revert i. induction items as [|v items IH]; intros i; simpl; [eauto|].
  rewrite issues_of_sp_ap, issues_of_sp_map, issues_of_under.
  intros [Hv Hrest]%app_eq_nil. apply fmap_nil_inv in Hv.
  destruct (speaks_z_string v Hv) as [s ->].
  destruct (IH _ Hrest) as [l ->]. simpl. eauto.
Qed.

Lemma speaks_tags : speaks (z_array z_string).
Proof.
  intros v. destruct v; simpl; try discriminate. apply parse_items_speaks.
Qed.

Lemma field_reported {A} (T : ZodType A) o k k' :
  speaks T →
  reported k (issues_of (field o k' T)) ↔ k = k' ∧ ¬ ∃ a, T (prop o k') = Success a.
Proof.
  intros Hspeaks. unfold field. rewrite issues_of_under, reported_under.
  split; intros [-> H]; (split; [reflexivity|]).
  - intros [a Ha]. rewrite Ha in H. contradiction.
  - intros Hnil. apply H, Hspeaks, Hnil.
Qed.

(** X12.  When the schema rejects an object, its issues point into
    exactly the required keys whose value is missing or has the wrong
    type: every such key is named, not only the first, and no other key
    is. *)
Theorem every_ill_typed_field_is_reported (Date_parse : string → Date)
    (o : gmap string Value) (issues : list ZodIssue) (k : string) :
  blog Date_parse (VObject o) = Failure issues →
  reported k issues ↔ k ∈ required ∧ ¬ field_typed k (prop o k).
Proof.
  intros Hfail.
  assert (Hissues : issues = issues_of (blog Date_parse (VObject o)))
    by (rewrite Hfail; reflexivity).
  rewrite Hissues. unfold blog, z_object.
  rewrite !issues_of_sp_ap, issues_of_sp_map, !reported_app.
  rewrite (field_reported z_string) by apply speaks_z_string.
  rewrite (field_reported z_string o k "description") by apply speaks_z_string.
  rewrite (field_reported _ o k "pubDate") by apply speaks_pubDate.
  rewrite (field_reported z_string o k "heroImage") by apply speaks_z_string.
  rewrite (field_reported _ o k "tags") by apply speaks_tags.
  rewrite (field_reported _ o k "visible") by apply speaks_z_boolean.
  setoid_rewrite z_string_success. setoid_rewrite z_boolean_success.
  setoid_rewrite z_array_strings. setoid_rewrite pubDate_success.
  unfold required. rewrite !elem_of_cons, elem_of_nil.
  split.
  - intros [[[[[[-> H]|[-> H]]|[-> H]]|[-> H]]|[-> H]]|[-> H]];
      (split; [tauto|]); unfold field_typed; simpl; intros Ht; apply H.
    + exact Ht.
    + exact Ht.
    + destruct Ht as [[ms ->]|[s ->]]; eauto.
    + exact Ht.
    + exact Ht.
    + exact Ht.
  - intros [[->|[->|[->|[->|[->|[->|[]]]]]]] H]; unfold field_typed in H; simpl in H.
    + do 5 left. split; [reflexivity|exact H].
    + do 4 left. right. split; [reflexivity|exact H].
    + do 3 left. right. split; [reflexivity|].
      intros [d [(ms & Hv & _)|(s & Hv & _)]]; apply H; eauto.
    + do 2 left. right. split; [reflexivity|exact H].
    + left. right. split; [reflexivity|exact H].
    + right. split; [reflexivity|exact H].
Qed.

Lemma every_ill_typed_field_is_reported_witness :
  let Date_parse := λ _ : string, InvalidDate in
  let o : gmap string Value :=
    <["title" := VString "Draft"]>
    (<["description" := VString "Not ready"]>
    (<["pubDate" := VNumber "20231213"]>
    (<["heroImage" := VString "/images/draft.jpg"]>
    (<["tags" := VArray [VString "typescript"; VBool true]]> ∅)))) in
  ∃ issues, blog Date_parse (VObject o) = Failure issues
    ∧ reported "pubDate" issues ∧ reported "tags" issues ∧ reported "visible" issues
    ∧ ¬ reported "title" issues.
Proof.
  intros Date_parse o. eexists. split; [reflexivity|].
  pose proof (λ k, every_ill_typed_field_is_reported Date_parse o _ k eq_refl) as Hrep.
  split_and!.
  - apply Hrep. split; [unfold required; rewrite !elem_of_cons; tauto|].
    unfold field_typed. simpl. intros [[ms [=]]|[s [=]]].
  - apply Hrep. split; [unfold required; rewrite !elem_of_cons; tauto|].
    unfold field_typed. simpl. intros [[|s [|? ?]] [=]].
  - apply Hrep. split; [unfold required; rewrite !elem_of_cons; tauto|].
    unfold field_typed. simpl. intros [b [=]].
  - intros [_ Htitle]%Hrep. apply Htitle. unfold field_typed. simpl. eauto.
Defined.

End SchemaMore.
